(** * The transcription relay: [POST] of [src/app/api/transcribe/route.ts]

    The route handler is the whole server side of the repository.  It is
    embedded as a function of everything it reads (the process
    environment, the incoming request, how the call to the provider ends)
    into everything it produces (the response as it leaves, the console
    lines, the outbound calls).  The ECMAScript semantics the handler
    relies on (truthiness, [||], [?.], property reads on [null],
    [JSON.parse] with its doubles, what [JSON.stringify] leaves of a value,
    [try]/[catch] of any thrown value) and the checks of
    [NextResponse.json] are written out in the first half of the file.

    The page that calls the handler, [SpeechRecognitionApp] of
    [src/app/page.tsx], is embedded after it ([Module Page]): its recording
    handlers and what it makes of the handler's answers. *)

From Stdlib Require Import ZArith List String Ascii Strings.Byte Bool Lia
  DecimalString SpecFloat.
Import ListNotations.
Local Open Scope list_scope.
Local Open Scope string_scope.

(** ** JavaScript values *)

Module JS.

(** A Number: a binary64 value, finite ones in their one normal form. *)
Definition double : Type := spec_float.

(** The double nearest to [mant * 10 ^ exp10] for [mant >= 0], ties to
    even, with the sign asked for: what a decimal literal denotes.  Beyond
    the largest double it is an infinity, below half the least subnormal a
    zero. *)
Definition double_of_decimal (negative : bool) (mant exp10 : Z) : double :=
  match mant with
  | Z0 => S754_zero negative
  | Zpos p =>
      if (0 <=? exp10)%Z
      then binary_round 53 1024 negative (Z.to_pos (Zpos p * 10 ^ exp10)) 0
      else SFdiv 53 1024 (S754_finite negative p 0)
                 (S754_finite false (Z.to_pos (10 ^ (- exp10))) 0)
  | Zneg _ => S754_nan
  end.

(** The values the handler can hold in a variable of type [any]: what
    [JSON.parse] builds, plus [undefined].  Strings are byte strings
    (UTF-8); an object is the list of its own properties, each key once,
    in the order the language enumerates them. *)
#[warnings="-register-all"] Inductive jsval : Type :=
| JUndefined
| JNull
| JBool (b : bool)
| JNum (d : double)
| JStr (s : string)
| JArr (items : list jsval)
| JObj (fields : list (string * jsval)).

(** ToBoolean. *)
Definition truthy (v : jsval) : bool :=
  match v with
  | JUndefined | JNull => false
  | JBool b => b
  | JNum (S754_zero _) | JNum S754_nan => false
  | JNum _ => true
  | JStr s => negb (s =? "")
  | JArr _ | JObj _ => true
  end.

(** [a || b] *)
Definition or_else (a b : jsval) : jsval := if truthy a then a else b.

Definition nullish (v : jsval) : bool :=
  match v with JUndefined | JNull => true | _ => false end.

Fixpoint lookup (k : string) (fs : list (string * jsval)) : jsval :=
  match fs with
  | [] => JUndefined
  | (k', v) :: fs' => if k =? k' then v else lookup k fs'
  end.

(** The number a string of decimal digits spells, read onto [acc]. *)
Fixpoint decimal_value (acc : N) (s : string) : option N :=
  match s with
  | EmptyString => Some acc
  | String c r =>
      let n := N_of_ascii c in
      if ((48 <=? n) && (n <=? 57))%N
      then decimal_value (acc * 10 + (n - 48))%N r
      else None
  end.

(** The array index a key spells: a decimal without a leading zero, below
    [2^32 - 1]. *)
Definition array_index (k : string) : option N :=
  match k with
  | EmptyString => None
  | String c r =>
      if (N_of_ascii c =? 48)%N && negb (r =? "") then None
      else
        match decimal_value 0 k with
        | Some n => if (n <? 4294967295)%N then Some n else None
        | None => None
        end
  end.

(** Own keys are enumerated with the array indices first, in ascending
    order, then the other keys in the order they were defined. *)
Definition precedes (k k' : string) : bool :=
  match array_index k, array_index k' with
  | Some i, Some j => (i <? j)%N
  | Some _, None => true
  | None, _ => false
  end.

(** Defining key [k] on a plain object: an existing key keeps its place and
    takes the new value, a new key takes its place in the enumeration. *)
Fixpoint assign (k : string) (v : jsval) (fs : list (string * jsval))
  : list (string * jsval) :=
  match fs with
  | [] => [(k, v)]
  | (k', v') :: fs' =>
      if k =? k' then (k, v) :: fs'
      else if precedes k k' then (k, v) :: (k', v') :: fs'
      else (k', v') :: assign k v fs'
  end.

(** [v.k] for a value that is neither [null] nor [undefined], for the
    keys the handler reads ([error], [message], [results], [channels],
    [alternatives], [transcript]): none of them is defined on a built-in
    prototype, so only an object's own fields answer. *)
Definition own_field (v : jsval) (k : string) : jsval :=
  match v with
  | JObj fs => lookup k fs
  | _ => JUndefined
  end.

(** [v[0]] for a value that is neither [null] nor [undefined].  Of a
    string the handler only sees that its first unit is there. *)
Definition own_first (v : jsval) : jsval :=
  match v with
  | JArr (x :: _) => x
  | JObj fs => lookup "0" fs
  | JStr (String c _) => JStr (String c "")
  | _ => JUndefined
  end.

(** [v?.k] and [v?.[0]] *)
Definition opt_field (v : jsval) (k : string) : jsval :=
  if nullish v then JUndefined else own_field v k.

Definition opt_first (v : jsval) : jsval :=
  if nullish v then JUndefined else own_first v.

(** What is left of a value once it has gone through [JSON.stringify]: the
    value a reader of the text gets back.  A number that is not finite
    becomes [null] and [-0] becomes [0]; [undefined] becomes [null] in an
    array and takes its key with it in an object. *)
Fixpoint wire (v : jsval) : jsval :=
  match v with
  | JUndefined => JUndefined
  | JNull => JNull
  | JBool b => JBool b
  | JNum (S754_finite s m e) => JNum (S754_finite s m e)
  | JNum (S754_zero _) => JNum (S754_zero false)
  | JNum _ => JNull
  | JStr s => JStr s
  | JArr items =>
      JArr (map (fun x =>
                   match wire x with JUndefined => JNull | w => w end)
                items)
  | JObj fields =>
      JObj ((fix members (fs : list (string * jsval)) :=
               match fs with
               | [] => []
               | (k, x) :: fs' =>
                   match wire x with
                   | JUndefined => members fs'
                   | w => (k, w) :: members fs'
                   end
               end) fields)
  end.

End JS.
Export JS.

(** ** [JSON.parse]

    The grammar of ECMA-404 as [JSON.parse] reads it: [None] stands for the
    [SyntaxError] it throws.  A number literal is read as the double
    nearest to it; a later duplicate key overwrites the earlier one; a
    [\u] escape is stored in UTF-8 (a surrogate pair as the one code point
    it denotes). *)

Module Json.

Definition code (c : ascii) : N := N_of_ascii c.

Definition is_ws (c : ascii) : bool :=
  let n := code c in
  ((n =? 32) || (n =? 9) || (n =? 10) || (n =? 13))%N.

Fixpoint skip_ws (s : string) : string :=
  match s with
  | String c s' => if is_ws c then skip_ws s' else s
  | EmptyString => s
  end.

Definition digit_of (c : ascii) : option Z :=
  let n := code c in
  if ((48 <=? n) && (n <=? 57))%N then Some (Z.of_N n - 48)%Z else None.

(** The longest run of digits at the head of [s], read onto [acc]; [count]
    counts them. *)
Fixpoint digits (acc count : Z) (s : string) : Z * Z * string :=
  match s with
  | String c s' =>
      match digit_of c with
      | Some d => digits (acc * 10 + d)%Z (count + 1)%Z s'
      | None => (acc, count, s)
      end
  | EmptyString => (acc, count, s)
  end.

Definition parse_exponent (sign m n : Z) (s : string)
  : option (jsval * string) :=
  match s with
  | String c r =>
      if ((code c =? 101) || (code c =? 69))%N then
        let '(sg, r1) :=
          match r with
          | String c1 r' =>
              if (code c1 =? 43)%N then (1%Z, r')
              else if (code c1 =? 45)%N then ((-1)%Z, r')
              else (1%Z, r)
          | EmptyString => (1%Z, r)
          end in
        let '(x, k, r2) := digits 0 0 r1 in
        if (k =? 0)%Z then None
        else Some (JNum (double_of_decimal (sign <? 0)%Z m (sg * x - n)), r2)
      else Some (JNum (double_of_decimal (sign <? 0)%Z m (- n)), s)
  | EmptyString => Some (JNum (double_of_decimal (sign <? 0)%Z m (- n)), s)
  end.

Definition parse_fraction (sign ip : Z) (s : string)
  : option (jsval * string) :=
  match s with
  | String c r =>
      if (code c =? 46)%N then
        let '(m, n, r1) := digits ip 0 r in
        if (n =? 0)%Z then None else parse_exponent sign m n r1
      else parse_exponent sign ip 0 s
  | EmptyString => parse_exponent sign ip 0 s
  end.

Definition parse_number (s : string) : option (jsval * string) :=
  let '(sign, s1) :=
    match s with
    | String c r => if (code c =? 45)%N then ((-1)%Z, r) else (1%Z, s)
    | EmptyString => (1%Z, s)
    end in
  match s1 with
  | String c r =>
      match digit_of c with
      | Some d =>
          if (d =? 0)%Z then parse_fraction sign 0 r
          else let '(ip, _, r1) := digits d 1 r in parse_fraction sign ip r1
      | None => None
      end
  | EmptyString => None
  end.

Definition hex_of (c : ascii) : option N :=
  let n := code c in
  if ((48 <=? n) && (n <=? 57))%N then Some (n - 48)%N
  else if ((65 <=? n) && (n <=? 70))%N then Some (n - 55)%N
  else if ((97 <=? n) && (n <=? 102))%N then Some (n - 87)%N
  else None.

Definition hex4 (s : string) : option (N * string) :=
  match s with
  | String a (String b (String c (String d r))) =>
      match hex_of a, hex_of b, hex_of c, hex_of d with
      | Some x, Some y, Some z, Some w =>
          Some (((x * 16 + y) * 16 + z) * 16 + w, r)%N
      | _, _, _, _ => None
      end
  | _ => None
  end.

Definition byte (n : N) : string := String (ascii_of_N n) "".

Definition utf8 (cp : N) : string :=
  (if cp <? 128 then byte cp
   else if cp <? 2048 then byte (192 + cp / 64) ++ byte (128 + cp mod 64)
   else if cp <? 65536 then
     byte (224 + cp / 4096) ++ byte (128 + (cp / 64) mod 64)
       ++ byte (128 + cp mod 64)
   else
     byte (240 + cp / 262144) ++ byte (128 + (cp / 4096) mod 64)
       ++ byte (128 + (cp / 64) mod 64) ++ byte (128 + cp mod 64))%N.

(** The low half of a surrogate pair, when [s] starts with its escape. *)
Definition low_surrogate (s : string) : option (N * string) :=
  match s with
  | String b (String u r) =>
      if ((code b =? 92) && (code u =? 117))%N then
        match hex4 r with
        | Some (l, r') =>
            if ((56320 <=? l) && (l <=? 57343))%N then Some (l, r') else None
        | None => None
        end
      else None
  | _ => None
  end.

Definition simple_escape (c : ascii) : option N :=
  let n := code c in
  (if (n =? 34) || (n =? 92) || (n =? 47) then Some n
   else if n =? 98 then Some 8
   else if n =? 102 then Some 12
   else if n =? 110 then Some 10
   else if n =? 114 then Some 13
   else if n =? 116 then Some 9
   else None)%N.

Definition prepend (p : string) (r : option (string * string))
  : option (string * string) :=
  match r with
  | Some (t, rest) => Some (p ++ t, rest)
  | None => None
  end.

(** The characters of a string literal after its opening quote, up to and
    including the closing one. *)
Fixpoint parse_chars (fuel : nat) (s : string) : option (string * string) :=
  match fuel with
  | O => None
  | S f =>
      match s with
      | EmptyString => None
      | String c r =>
          if (code c =? 34)%N then Some ("", r)
          else if (code c =? 92)%N then
            match r with
            | EmptyString => None
            | String e r1 =>
                match simple_escape e with
                | Some n => prepend (byte n) (parse_chars f r1)
                | None =>
                    if (code e =? 117)%N then
                      match hex4 r1 with
                      | None => None
                      | Some (h, r2) =>
                          if ((55296 <=? h) && (h <=? 56319))%N then
                            match low_surrogate r2 with
                            | Some (l, r3) =>
                                prepend
                                  (utf8 (65536 + (h - 55296) * 1024
                                         + (l - 56320))%N)
                                  (parse_chars f r3)
                            | None => prepend (utf8 h) (parse_chars f r2)
                            end
                          else prepend (utf8 h) (parse_chars f r2)
                      end
                    else None
                end
            end
          else if (code c <? 32)%N then None
          else prepend (String c "") (parse_chars f r)
      end
  end.

Definition parse_string (s : string) : option (string * string) :=
  parse_chars (S (String.length s)) s.

(** [s] without its prefix [word]. *)
Fixpoint strip (word s : string) : option string :=
  match word with
  | EmptyString => Some s
  | String a word' =>
      match s with
      | String b s' => if Ascii.eqb a b then strip word' s' else None
      | EmptyString => None
      end
  end.

Definition literal (word : string) (v : jsval) (s : string)
  : option (jsval * string) :=
  match strip word s with
  | Some r => Some (v, r)
  | None => None
  end.

Fixpoint parse_value (fuel : nat) (s : string) {struct fuel}
  : option (jsval * string) :=
  match fuel with
  | O => None
  | S f =>
      match skip_ws s with
      | EmptyString => None
      | String c r as s0 =>
          let n := code c in
          if (n =? 123)%N then
            match skip_ws r with
            | String c1 r1 as r0 =>
                if (code c1 =? 125)%N then Some (JObj [], r1)
                else parse_members f [] r0
            | EmptyString => None
            end
          else if (n =? 91)%N then
            match skip_ws r with
            | String c1 r1 as r0 =>
                if (code c1 =? 93)%N then Some (JArr [], r1)
                else parse_elements f [] r0
            | EmptyString => None
            end
          else if (n =? 34)%N then
            match parse_string r with
            | Some (t, r1) => Some (JStr t, r1)
            | None => None
            end
          else if (n =? 116)%N then literal "true" (JBool true) s0
          else if (n =? 102)%N then literal "false" (JBool false) s0
          else if (n =? 110)%N then literal "null" JNull s0
          else parse_number s0
      end
  end

with parse_elements (fuel : nat) (acc : list jsval) (s : string)
  {struct fuel} : option (jsval * string) :=
  match fuel with
  | O => None
  | S f =>
      match parse_value f s with
      | None => None
      | Some (v, r) =>
          match skip_ws r with
          | String c r1 =>
              if (code c =? 44)%N then parse_elements f (v :: acc) r1
              else if (code c =? 93)%N then Some (JArr (rev (v :: acc)), r1)
              else None
          | EmptyString => None
          end
      end
  end

with parse_members (fuel : nat) (acc : list (string * jsval)) (s : string)
  {struct fuel} : option (jsval * string) :=
  match fuel with
  | O => None
  | S f =>
      match skip_ws s with
      | String q r =>
          if (code q =? 34)%N then
            match parse_string r with
            | None => None
            | Some (k, r1) =>
                match skip_ws r1 with
                | String c r2 =>
                    if (code c =? 58)%N then
                      match parse_value f r2 with
                      | None => None
                      | Some (v, r3) =>
                          match skip_ws r3 with
                          | String d r4 =>
                              if (code d =? 44)%N
                              then parse_members f (assign k v acc) r4
                              else if (code d =? 125)%N
                              then Some (JObj (assign k v acc), r4)
                              else None
                          | EmptyString => None
                          end
                      end
                    else None
                | EmptyString => None
                end
            end
          else None
      | EmptyString => None
      end
  end.

(** One value, then nothing but white space. *)
Definition parse_all (fuel : nat) (text : string) : option jsval :=
  match parse_value fuel text with
  | Some (v, r) =>
      match skip_ws r with
      | EmptyString => Some v
      | String _ _ => None
      end
  | None => None
  end.

(** [JSON.parse(text)].  Every recursive call follows a consumed character
    within two steps, so twice the length is fuel enough ([parse_fuel]
    below). *)
Definition parse (text : string) : option jsval :=
  parse_all (2 * String.length text + 2) text.

End Json.

(** ** Effects: console, network, exceptions *)

Module Effects.

(** A thrown value that a [catch] clause can read, as the clause sees it:
    the text of its [message] (a string; empty when the property is
    missing or falsy) and the text [JSON.stringify] gives for the value.
    The [Error] instances that the engine, the runtime and the platform
    throw are of this kind. *)
Record JsError := { message : string; stringified : string }.

(** What a [catch (error: any)] clause can receive: a value it can read;
    [null] or [undefined], which have no properties at all; or any other
    value on which reading [message], or asking for the JSON text when
    there is no message, throws [raised] (a BigInt, an object that
    contains itself). *)
Inductive thrown :=
| ThrownObject (e : JsError)
| ThrownNull
| ThrownUndefined
| ThrownOpaque (raised : JsError).

Coercion ThrownObject : JsError >-> thrown.

Inductive level := Log | Warn | Error.

Inductive arg :=
| Text (s : string)
| Num (n : Z)
| Obj (fields : list (string * string))
| Err (e : thrown).

(** One [console] call. *)
Record line := { lvl : level; args : list arg }.

(** One call of [fetch]. *)
Record FetchCall := {
  url : string;
  method : string;
  headers : list (string * string);
  body : list byte
}.

Record Trace := { console : list line; outbound : list FetchCall }.

Definition quiet : Trace := {| console := []; outbound := [] |}.

(** How a call ends: it returns, or throws what an [E] describes. *)
Inductive outcome (E A : Type) :=
| Returned (a : A)
| Thrown (e : E).
Arguments Returned {E A} a.
Arguments Thrown {E A} & e.

(** A call that can only throw an object: the calls of the page. *)
Definition completion : Type -> Type := outcome JsError.

(** A call that can throw any value: the calls of the handler, whose
    [catch] clause is typed [any]. *)
Definition settlement : Type -> Type := outcome thrown.

(** A computation of the handler: it extends the trace and either returns
    or throws.  What was logged before a throw stays logged. *)
Definition M (A : Type) : Type := Trace -> settlement A * Trace.

Definition ret {A} (a : A) : M A := fun t => (Returned a, t).

Definition throw {A} (e : thrown) : M A := fun t => (Thrown e, t).

Definition bind {A B} (m : M A) (k : A -> M B) : M B :=
  fun t =>
    match m t with
    | (Returned a, t') => k a t'
    | (Thrown e, t') => (Thrown e, t')
    end.

(** [try { m } catch (e) { h e }] *)
Definition try_catch {A} (m : M A) (h : thrown -> M A) : M A :=
  fun t =>
    match m t with
    | (Returned a, t') => (Returned a, t')
    | (Thrown e, t') => h e t'
    end.

(** [await p] for a promise that has settled as [c]; also a plain call
    that ends as [c]. *)
Definition await {A} (c : settlement A) : M A := fun t => (c, t).

Definition emit (l : level) (a : list arg) : M unit :=
  fun t =>
    (Returned tt,
     {| console := (console t ++ [{| lvl := l; args := a |}])%list;
        outbound := outbound t |}).

Definition console_log := emit Log.
Definition console_warn := emit Warn.
Definition console_error := emit Error.

(** [fetch(url, init)]: the call is made, then the promise settles as
    [answer] says.  [answer] stands for everything that decides it: the
    platform, which rejects a call it will not send (a header value that
    is not legal, no route to the host), and the provider.  [outbound]
    records the calls made, rejected ones included. *)
Definition fetch {A} (answer : settlement A) (call : FetchCall) : M A :=
  fun t =>
    (answer,
     {| console := console t; outbound := (outbound t ++ [call])%list |}).

Definition run {A} (m : M A) : settlement A * Trace := m quiet.

End Effects.
Export Effects.

Declare Scope js_scope.
Delimit Scope js_scope with js.
Notation "x <- m ;; k" := (bind m (fun x => k))
  (at level 61, m at next level, right associativity) : js_scope.
Notation "m ;; k" := (bind m (fun _ => k))
  (at level 61, right associativity) : js_scope.

(** ** The platform objects the handler touches *)

Module File.
Record t := { name : string; type : string; bytes : list byte }.
Definition size (f : t) : Z := Z.of_nat (List.length (bytes f)).
Definition arrayBuffer (f : t) : list byte := bytes f.
End File.

(** An entry of a [FormData]: a plain field or an uploaded file. *)
Inductive FormDataEntryValue :=
| EntryString (s : string)
| EntryFile (f : File.t).

Module FormData.
Definition t := list (string * FormDataEntryValue).
(** [formData.get(name)]: the first entry of that name, or [null]. *)
Fixpoint get (name : string) (fd : t) : option FormDataEntryValue :=
  match fd with
  | [] => None
  | (k, v) :: fd' => if k =? name then Some v else get name fd'
  end.
End FormData.

Module NextRequest.
(** [formData] is how [req.formData()] settles. *)
Record t := { formData : settlement FormData.t }.
End NextRequest.

(** The provider's answer, a [Response] of [fetch]. *)
Module Response.
Record t := { ok : bool; status : Z; text : settlement string }.
End Response.

(** The errors the engine and the runtime raise themselves; their wording
    is theirs. *)
Record Engine := {
  (** reading property [k] of [v], for [v] [null] or [undefined] *)
  TypeError_read : jsval -> string -> JsError;
  (** [JSON.parse] on a text outside the grammar *)
  SyntaxError_json : string -> JsError;
  (** a response asked for with a status outside 200-599 *)
  RangeError_status : Z -> JsError;
  (** a response with a body asked for under a status that has none *)
  TypeError_null_body : Z -> JsError
}.

(** What the handler returns: the status, and the body as a reader of the
    response gets it back from the JSON text. *)
Module NextResponse.

Record t := { status : Z; body : jsval }.

(** The statuses of the Fetch standard that never carry a body. *)
Definition null_body_status (s : Z) : bool :=
  ((s =? 101) || (s =? 103) || (s =? 204) || (s =? 205) || (s =? 304))%Z.

(** The statuses under which [json] builds a response. *)
Definition takes_body (s : Z) : bool :=
  ((200 <=? s) && (s <=? 599))%Z && negb (null_body_status s).

(** What [json] throws under the other statuses. *)
Definition status_error (engine : Engine) (s : Z) : JsError :=
  if ((s <? 200) || (599 <? s))%Z then RangeError_status engine s
  else TypeError_null_body engine s.

(** [NextResponse.json(body, { status })]: the body goes out as its JSON
    text, and the status is checked as the [Response] constructor checks
    it: a [RangeError] outside 200-599, a [TypeError] for a status that
    has no body. *)
Definition json (engine : Engine) (b : jsval) (s : Z) : settlement t :=
  if ((s <? 200) || (599 <? s))%Z then Thrown (RangeError_status engine s)
  else if null_body_status s then Thrown (TypeError_null_body engine s)
  else Returned {| status := s; body := wire b |}.

End NextResponse.

(** ** The handler *)

Section Handler.

Local Open Scope js_scope.

Variable engine : Engine.

(** [v.k]: a [TypeError] on [null] and [undefined]. *)
Definition member (v : jsval) (k : string) : M jsval :=
  if nullish v then throw (TypeError_read engine v k)
  else ret (own_field v k).

(** [JSON.parse(text)] *)
Definition JSON_parse (text : string) : M jsval :=
  match Json.parse text with
  | Some v => ret v
  | None => throw (SyntaxError_json engine text)
  end.

(** [response.json()]: read the body, then parse it. *)
Definition Response_json (r : Response.t) : M jsval :=
  t <- await (Response.text r) ;; JSON_parse t.

Definition endpoint : string :=
  "https://api.deepgram.com/v1/listen?model=nova-2&smart_format=true&punctuate=true".

Definition error_body (v : jsval) : jsval := JObj [("error", v)].

Definition transcript_body (v : jsval) : jsval := JObj [("transcript", v)].

(** [errorJson.error || errorJson.message || "Deepgram API error"] *)
Definition provider_message (errorJson : jsval) : M jsval :=
  e <- member errorJson "error" ;;
  if truthy e then ret e
  else
    m <- member errorJson "message" ;;
    ret (or_else m (JStr "Deepgram API error")).

(** [deepgramData.results?.channels?.[0]?.alternatives?.[0]?.transcript] *)
Definition transcript_path (deepgramData : jsval) : M jsval :=
  results <- member deepgramData "results" ;;
  ret (opt_field
         (opt_first
            (opt_field (opt_first (opt_field results "channels"))
                       "alternatives"))
         "transcript").

(** Lines 57-81: what the handler makes of the provider's answer. *)
Definition interpret (deepgramResponse : Response.t) : M NextResponse.t :=
  if negb (Response.ok deepgramResponse) then
    errorText <- await (Response.text deepgramResponse) ;;
    console_error [Text "Deepgram API returned an error:";
                   Num (Response.status deepgramResponse);
                   Text errorText] ;;
    try_catch
      (errorJson <- JSON_parse errorText ;;
       v <- provider_message errorJson ;;
       await (NextResponse.json engine (error_body v)
                (Response.status deepgramResponse)))
      (fun _ =>
         await (NextResponse.json engine
                  (error_body (JStr ("Deepgram API error: " ++ errorText)))
                  (Response.status deepgramResponse)))
  else
    deepgramData <- Response_json deepgramResponse ;;
    found <- transcript_path deepgramData ;;
    let transcription := or_else found (JStr "") in
    if negb (truthy transcription) then
      console_warn [Text "Deepgram returned no transcription text."] ;;
      await (NextResponse.json engine
               (error_body
                  (JStr "No transcript could be generated from the audio."))
               404%Z)
    else await (NextResponse.json engine (transcript_body transcription) 200%Z).

Definition no_audio : M NextResponse.t :=
  console_error [Text "Server Error: No audio file provided in request."] ;;
  await (NextResponse.json engine
           (error_body (JStr "No audio file provided.")) 400%Z).

(** The call of lines 45-55. *)
Definition deepgram_call (deepgramApiKey : string) (audioFile : File.t)
  : FetchCall :=
  {| url := endpoint;
     method := "POST";
     headers := [("Authorization", "Token " ++ deepgramApiKey);
                 ("Content-Type", File.type audioFile)];
     body := File.arrayBuffer audioFile |}.

(** Lines 24-81, for an [audio] entry that is a file. *)
Definition forward (deepgramApiKey : string) (audioFile : File.t)
    (network : settlement Response.t) : M NextResponse.t :=
  if negb (String.prefix "audio/" (File.type audioFile)) then
    console_error [Text "Server Error: Invalid file type provided:";
                   Text (File.type audioFile)] ;;
    await (NextResponse.json engine
             (error_body
                (JStr "Invalid file type. Only audio files are supported."))
             400%Z)
  else
    let audioBuffer := File.arrayBuffer audioFile in
    console_log [Text "Received audio file:"; Text (File.name audioFile);
                 Text (File.type audioFile); Num (File.size audioFile);
                 Text "bytes"] ;;
    console_log [Text "Sending request to Deepgram:"; Text endpoint] ;;
    console_log [Text "Headers:";
                 Obj [("Authorization", "Token [API Key Masked]");
                      ("Content-Type", File.type audioFile)]] ;;
    console_log [Text "Body size:";
                 Num (Z.of_nat (List.length audioBuffer)); Text "bytes"] ;;
    deepgramResponse <- fetch network (deepgram_call deepgramApiKey audioFile) ;;
    interpret deepgramResponse.

(** The [try] block.  [env] is [process.env.DEEPGRAM_API_KEY], [network]
    is how the call to the provider settles if it is made. *)
Definition guarded (env : option string) (req : NextRequest.t)
    (network : settlement Response.t) : M NextResponse.t :=
  match env with
  | None | Some "" =>
      console_error
        [Text "Server Error: DEEPGRAM_API_KEY environment variable not set."] ;;
      await (NextResponse.json engine
               (error_body
                  (JStr "Deepgram API Key not configured. Please set DEEPGRAM_API_KEY environment variable."))
               500%Z)
  | Some deepgramApiKey =>
      formData <- await (NextRequest.formData req) ;;
      match FormData.get "audio" formData with
      | None | Some (EntryString "") => no_audio
      | Some (EntryString _) =>
          (* a text field has no [type]: [undefined.startsWith] *)
          throw (TypeError_read engine JUndefined "startsWith")
      | Some (EntryFile audioFile) =>
          forward deepgramApiKey audioFile network
      end
  end.

(** The [catch] block.  It logs what it caught, whatever that is; reading
    [error.message] then throws when the value caught is [null] or
    [undefined], and so does the read that a value refuses. *)
Definition recover (error : thrown) : M NextResponse.t :=
  console_error [Text "Server-side transcription error:"; Err error] ;;
  match error with
  | ThrownNull => throw (TypeError_read engine JNull "message")
  | ThrownUndefined => throw (TypeError_read engine JUndefined "message")
  | ThrownOpaque raised => throw raised
  | ThrownObject e =>
      let errorMessage :=
        if negb (message e =? "")
        then "Transcription failed: " ++ message e
        else "An unknown error occurred: " ++ stringified e in
      await (NextResponse.json engine (error_body (JStr errorMessage)) 500%Z)
  end.

Definition POST (env : option string) (req : NextRequest.t)
    (network : settlement Response.t) : M NextResponse.t :=
  try_catch (guarded env req network) recover.

End Handler.

(** ** What the caller and the operator observe *)

(** The response of a run, when it returned one. *)
Definition response {A} (o : settlement A * Trace) : settlement A := fst o.

Definition logged {A} (o : settlement A * Trace) : list line :=
  console (snd o).

Definition calls {A} (o : settlement A * Trace) : list FetchCall :=
  outbound (snd o).

(** [process.env.DEEPGRAM_API_KEY] holds a credential. *)
Definition configured (env : option string) (key : string) : Prop :=
  env = Some key /\ key <> "".

(** The request carries a file under [audio]. *)
Definition submits (req : NextRequest.t) (audioFile : File.t) : Prop :=
  exists fd, NextRequest.formData req = Returned fd
             /\ FormData.get "audio" fd = Some (EntryFile audioFile).

Definition audio_type (f : File.t) : bool :=
  String.prefix "audio/" (File.type f).

(** The trace at the moment the provider has answered. *)
Definition sent (key : string) (f : File.t) : Trace :=
  {| console :=
       [ {| lvl := Log;
            args := [Text "Received audio file:"; Text (File.name f);
                     Text (File.type f); Num (File.size f); Text "bytes"] |};
         {| lvl := Log;
            args := [Text "Sending request to Deepgram:"; Text endpoint] |};
         {| lvl := Log;
            args := [Text "Headers:";
                     Obj [("Authorization", "Token [API Key Masked]");
                          ("Content-Type", File.type f)]] |};
         {| lvl := Log;
            args := [Text "Body size:";
                     Num (Z.of_nat (List.length (File.bytes f)));
                     Text "bytes"] |} ];
     outbound := [deepgram_call key f] |}.

(** The handler's fixed answers and the lines it logs with them. *)
Definition key_not_configured : NextResponse.t :=
  {| NextResponse.status := 500;
     NextResponse.body :=
       JObj [("error",
              JStr "Deepgram API Key not configured. Please set DEEPGRAM_API_KEY environment variable.")] |}.

Definition key_not_configured_line : line :=
  {| lvl := Error;
     args :=
       [Text "Server Error: DEEPGRAM_API_KEY environment variable not set."] |}.

Definition no_audio_file : NextResponse.t :=
  {| NextResponse.status := 400;
     NextResponse.body := JObj [("error", JStr "No audio file provided.")] |}.

Definition no_audio_file_line : line :=
  {| lvl := Error;
     args := [Text "Server Error: No audio file provided in request."] |}.

Definition invalid_file_type : NextResponse.t :=
  {| NextResponse.status := 400;
     NextResponse.body :=
       JObj [("error",
              JStr "Invalid file type. Only audio files are supported.")] |}.

Definition invalid_file_type_line (f : File.t) : line :=
  {| lvl := Error;
     args := [Text "Server Error: Invalid file type provided:";
              Text (File.type f)] |}.

Definition no_transcript : NextResponse.t :=
  {| NextResponse.status := 404;
     NextResponse.body :=
       JObj [("error",
              JStr "No transcript could be generated from the audio.")] |}.

Definition no_transcript_line : line :=
  {| lvl := Warn; args := [Text "Deepgram returned no transcription text."] |}.

(** The text the [catch] block puts in its response. *)
Definition fault_text (e : JsError) : string :=
  if negb (message e =? "")
  then "Transcription failed: " ++ message e
  else "An unknown error occurred: " ++ stringified e.

(** The line the [catch] block logs for what it caught. *)
Definition fault_line (e : thrown) : line :=
  {| lvl := Error; args := [Text "Server-side transcription error:"; Err e] |}.

(** The answer of the [catch] block to the object [e]. *)
Definition failed (e : JsError) : NextResponse.t :=
  {| NextResponse.status := 500;
     NextResponse.body := JObj [("error", JStr (fault_text e))] |}.

(** The spec's words for the body of a transcription. *)
Inductive transcript_shape (t : string) : jsval -> Prop :=
| shape_intro top results channels first_channel alternatives first_alt :
    lookup "results" top = JObj results ->
    lookup "channels" results = JArr (JObj first_channel :: channels) ->
    lookup "alternatives" first_channel
      = JArr (JObj first_alt :: alternatives) ->
    lookup "transcript" first_alt = JStr t ->
    transcript_shape t (JObj top).

(** The value of the optional chain, below a root that is not [null]. *)
Definition first_transcript (d : jsval) : jsval :=
  opt_field
    (opt_first
       (opt_field (opt_first (opt_field (own_field d "results") "channels"))
                  "alternatives"))
    "transcript".

Definition provider_error_line (r : Response.t) (errorText : string) : line :=
  {| lvl := Error;
     args := [Text "Deepgram API returned an error:";
              Num (Response.status r); Text errorText] |}.

Definition push (l : line) (t : Trace) : Trace :=
  {| console := (console t ++ [l])%list; outbound := outbound t |}.

(** The error value of lines 57-68 as the spec words it: the parsed
    object's [error], else its [message], else the generic string; the raw
    text when the body is not JSON. *)
Definition spec_surfaced (errorText : string) : jsval :=
  match Json.parse errorText with
  | Some errorJson =>
      or_else (own_field errorJson "error")
        (or_else (own_field errorJson "message") (JStr "Deepgram API error"))
  | None => JStr ("Deepgram API error: " ++ errorText)
  end.

(** The same, with the body [null] on the side of the raw text: reading a
    field of [null] throws inside the inner [try]. *)
Definition surfaced (errorText : string) : jsval :=
  match Json.parse errorText with
  | Some JNull | None => JStr ("Deepgram API error: " ++ errorText)
  | Some errorJson =>
      or_else (own_field errorJson "error")
        (or_else (own_field errorJson "message") (JStr "Deepgram API error"))
  end.

(** Fuel [f] is never what a successful parse depends on: the rest is
    shorter than the text, and twice the consumed length of fuel gives the
    same result. *)
Definition enough_value (f : nat) : Prop :=
  forall s v r, Json.parse_value f s = Some (v, r) ->
    (String.length r < String.length s)%nat
    /\ forall g, (2 * (String.length s - String.length r) <= g)%nat ->
                 Json.parse_value g s = Some (v, r).

Definition enough_elements (f : nat) : Prop :=
  forall acc s v r, Json.parse_elements f acc s = Some (v, r) ->
    (String.length r < String.length s)%nat
    /\ forall g, (2 * (String.length s - String.length r) <= g)%nat ->
                 Json.parse_elements g acc s = Some (v, r).

Definition enough_members (f : nat) : Prop :=
  forall acc s v r, Json.parse_members f acc s = Some (v, r) ->
    (String.length r < String.length s)%nat
    /\ forall g, (2 * (String.length s - String.length r) <= g)%nat ->
                 Json.parse_members g acc s = Some (v, r).

(** ** Predicates on computations *)

(** [m] makes no outbound call. *)
Definition silent {A} (m : M A) : Prop :=
  forall t, outbound (snd (m t)) = outbound t.

(** [m1] and [m2] answer alike and log alike, whatever calls went out. *)
Definition similar {A} (m1 m2 : M A) : Prop :=
  forall t1 t2, console t1 = console t2 ->
    fst (m1 t1) = fst (m2 t2)
    /\ console (snd (m1 t1)) = console (snd (m2 t2)).

(** If [c] ends in a throw, what is thrown is a value the [catch] block
    can read. *)
Definition objects_only {A} (c : settlement A) : Prop :=
  match c with
  | Returned _ | Thrown (ThrownObject _) => True
  | Thrown _ => False
  end.

(** Whatever [m] throws is a value the [catch] block can read. *)
Definition throws_objects {A} (m : M A) : Prop :=
  forall t, objects_only (fst (m t)).

(** What the [catch] block throws itself on a value it cannot read. *)
Definition unread (engine : Engine) (v : thrown) : option JsError :=
  match v with
  | ThrownObject _ => None
  | ThrownNull => Some (TypeError_read engine JNull "message")
  | ThrownUndefined => Some (TypeError_read engine JUndefined "message")
  | ThrownOpaque raised => Some raised
  end.

(** [needle] occurs somewhere in [hay]. *)
Fixpoint occurs (needle hay : string) : bool :=
  String.prefix needle hay
  || match hay with
     | EmptyString => false
     | String _ rest => occurs needle rest
     end.

(** ** Sample inputs *)

Definition dq : string := String (ascii_of_nat 34) "".

Definition quoted (s : string) : string := dq ++ s ++ dq.

(** What the page uploads: [new Blob(chunks, { type: "audio/webm" })] under
    the name [recording.webm]. *)
Definition recording : File.t :=
  {| File.name := "recording.webm";
     File.type := "audio/webm";
     File.bytes := [x1a; x45; xdf; xa3] |}.

Definition silence : File.t :=
  {| File.name := "recording.webm";
     File.type := "audio/webm";
     File.bytes := [] |}.

Definition notes : File.t :=
  {| File.name := "notes.txt";
     File.type := "text/plain";
     File.bytes := [x68; x69] |}.

Definition upload (f : File.t) : NextRequest.t :=
  {| NextRequest.formData := Returned [("audio", EntryFile f)] |}.

Definition empty_form : NextRequest.t :=
  {| NextRequest.formData := Returned [] |}.

Definition answer (ok : bool) (status : Z) (text : string) : Response.t :=
  {| Response.ok := ok; Response.status := status;
     Response.text := Returned text |}.

(** [{"results":{"channels":[{"alternatives":[{"transcript":"hello world"}]}]}}] *)
Definition hello_world : string :=
  "{" ++ quoted "results" ++ ":{" ++ quoted "channels" ++ ":[{"
  ++ quoted "alternatives" ++ ":[{" ++ quoted "transcript" ++ ":"
  ++ quoted "hello world" ++ "}]}]}}".

(** [{"error":"bad audio"}] *)
Definition bad_audio : string :=
  "{" ++ quoted "error" ++ ":" ++ quoted "bad audio" ++ "}".

(** [{"results":{"channels":[]}}] *)
Definition no_channels : string :=
  "{" ++ quoted "results" ++ ":{" ++ quoted "channels" ++ ":[]}}".

Definition not_multipart : JsError :=
  {| message := "Failed to parse body as FormData.";
     stringified := "{}" |}.

(** ** More of the handler: what it keeps and what it never does *)

(** The request passes every check before the call. *)
Definition accepted (env : option string) (req : NextRequest.t)
    (key : string) (f : File.t) : Prop :=
  configured env key /\ submits req f /\ audio_type f = true.

(** [t] extended by what a run from [quiet] left in [d]. *)
Definition extend (t d : Trace) : Trace :=
  {| console := (console t ++ console d)%list;
     outbound := (outbound t ++ outbound d)%list |}.

(** [m] only appends to the trace, and does the same after any trace. *)
Definition framed {A} (m : M A) : Prop :=
  forall t, m t = (fst (m quiet), extend t (snd (m quiet))).

(** A response the page can tell apart: one field, [transcript] under
    200 or [error], holding what is left on the wire of a truthy value. *)
Definition well_formed (r : NextResponse.t) : Prop :=
  exists v,
    truthy v = true
    /\ (r = {| NextResponse.status := 200;
               NextResponse.body := JObj [("transcript", wire v)] |}
        \/ NextResponse.body r = JObj [("error", wire v)]).

(** A run ended well: a transcript, and then only [console.log] lines; or
    an error, and then a last line that is not a [console.log]. *)
Definition ended_well (r : NextResponse.t) (t : Trace) : Prop :=
  (exists v, r = {| NextResponse.status := 200;
                    NextResponse.body := transcript_body (wire v) |}
             /\ truthy v = true
             /\ Forall (fun l => lvl l = Log) (console t))
  \/ (exists v ls l, NextResponse.body r = error_body (wire v)
                     /\ truthy v = true
                     /\ console t = (ls ++ [l])%list /\ lvl l <> Log).

(** ** The page: [SpeechRecognitionApp] of [src/app/page.tsx]

    The component's handlers, each run to its end on the component's state
    and refs.  What a handler does to the world outside (toasts, console
    lines, the request to [/api/transcribe], the clipboard, the speech
    synthesiser, a download) is kept as a list of events. *)

Module Page.

(** [MediaRecorder.state] *)
Inductive RecordingState := inactive | recording | paused.

(** The argument of [toast]; [destructive] is [variant: "destructive"]. *)
Record Toast := { title : string; description : string; destructive : bool }.

(** [fetch(url, { method, body: formData })] *)
Record Request := { url : string; method : string; body : FormData.t }.

(** The [Response] the page's [fetch] resolves with. *)
Record Reply := {
  ok : bool;
  status : Z;
  statusText : string;
  text : completion string
}.

Inductive Event :=
| Toasted (t : Toast)
| Logged (l : line)
| Fetched (r : Request)
| Copied (v : jsval)
| Spoke (text : jsval) (lang : string)
| Downloaded (filename : string) (type : string) (content : jsval).

(** The component: its three [useState] cells, its two refs, the number of
    microphone streams whose tracks are live, and the events so far. *)
Record t := {
  isRecording : bool;
  isTranscribing : bool;
  transcript : jsval;
  mediaRecorder : option RecordingState;
  audioChunks : list (list byte);
  liveStreams : nat;
  events : list Event
}.

(** The component as first rendered. *)
Definition initial : t :=
  {| isRecording := false; isTranscribing := false; transcript := JStr "";
     mediaRecorder := None; audioChunks := []; liveStreams := 0;
     events := [] |}.

Definition P (A : Type) : Type := t -> completion A * t.

Definition ret {A} (a : A) : P A := fun s => (Returned a, s).

Definition throw {A} (e : JsError) : P A := fun s => (Thrown e, s).

Definition bind {A B} (m : P A) (k : A -> P B) : P B :=
  fun s =>
    match m s with
    | (Returned a, s') => k a s'
    | (Thrown e, s') => (Thrown e, s')
    end.

Definition try_catch {A} (m : P A) (h : JsError -> P A) : P A :=
  fun s =>
    match m s with
    | (Returned a, s') => (Returned a, s')
    | (Thrown e, s') => h e s'
    end.

(** [try { m } finally { f }] for an [f] that does not throw. *)
Definition try_finally {A} (m : P A) (f : t -> t) : P A :=
  fun s => let '(c, s') := m s in (c, f s').

Definition await {A} (c : completion A) : P A := fun s => (c, s).

Definition update (f : t -> t) : P unit := fun s => (Returned tt, f s).

Definition setIsRecording (b : bool) (s : t) : t :=
  {| isRecording := b; isTranscribing := isTranscribing s;
     transcript := transcript s; mediaRecorder := mediaRecorder s;
     audioChunks := audioChunks s; liveStreams := liveStreams s;
     events := events s |}.

Definition setIsTranscribing (b : bool) (s : t) : t :=
  {| isRecording := isRecording s; isTranscribing := b;
     transcript := transcript s; mediaRecorder := mediaRecorder s;
     audioChunks := audioChunks s; liveStreams := liveStreams s;
     events := events s |}.

(** [setTranscript(v)]: the state write.  What React then makes of the
    state is not a step of any handler: a text is shown as it is, while an
    object in its place makes the render throw. *)
Definition setTranscript (v : jsval) (s : t) : t :=
  {| isRecording := isRecording s; isTranscribing := isTranscribing s;
     transcript := v; mediaRecorder := mediaRecorder s;
     audioChunks := audioChunks s; liveStreams := liveStreams s;
     events := events s |}.

Definition setMediaRecorder (r : option RecordingState) (s : t) : t :=
  {| isRecording := isRecording s; isTranscribing := isTranscribing s;
     transcript := transcript s; mediaRecorder := r;
     audioChunks := audioChunks s; liveStreams := liveStreams s;
     events := events s |}.

Definition setAudioChunks (c : list (list byte)) (s : t) : t :=
  {| isRecording := isRecording s; isTranscribing := isTranscribing s;
     transcript := transcript s; mediaRecorder := mediaRecorder s;
     audioChunks := c; liveStreams := liveStreams s;
     events := events s |}.

Definition setLiveStreams (n : nat) (s : t) : t :=
  {| isRecording := isRecording s; isTranscribing := isTranscribing s;
     transcript := transcript s; mediaRecorder := mediaRecorder s;
     audioChunks := audioChunks s; liveStreams := n;
     events := events s |}.

Definition emit (e : Event) (s : t) : t :=
  {| isRecording := isRecording s; isTranscribing := isTranscribing s;
     transcript := transcript s; mediaRecorder := mediaRecorder s;
     audioChunks := audioChunks s; liveStreams := liveStreams s;
     events := (events s ++ [e])%list |}.

Definition toast (t : Toast) : P unit := update (emit (Toasted t)).

Definition console_error (a : list arg) : P unit :=
  update (emit (Logged {| lvl := Error; args := a |})).

(** The entry that [formData.append(name, new Blob(parts, { type }),
    filename)] stores, for parts that are blobs. *)
Definition Blob (parts : list (list byte)) (type : string) (filename : string)
  : File.t :=
  {| File.name := filename; File.type := type; File.bytes := List.concat parts |}.

(** [`${n}`] for an integer [n]. *)
Definition decimal (n : Z) : string := NilZero.string_of_int (Z.to_int n).

(** [iso.split("T")[0]] *)
Fixpoint before_T (iso : string) : string :=
  match iso with
  | EmptyString => EmptyString
  | String c rest =>
      if Ascii.eqb c "T"%char then EmptyString else String c (before_T rest)
  end.


Declare Scope page_scope.
Delimit Scope page_scope with page.
Notation "x <- m ;; k" := (bind m (fun x => k))
  (at level 61, m at next level, right associativity) : page_scope.
Notation "m ;; k" := (bind m (fun _ => k))
  (at level 61, right associativity) : page_scope.

Section Handlers.

Local Open Scope page_scope.

Variable engine : Engine.

(** [ToString] of a value that is not a string; strings are themselves. *)
Variable ToString : jsval -> completion string.

Definition to_string (v : jsval) : P string :=
  match v with
  | JStr s => ret s
  | _ => await (ToString v)
  end.

(** [new Error(message)] *)
Definition new_Error (message : string) : JsError :=
  {| Effects.message := message; stringified := "{}" |}.

Definition member (v : jsval) (k : string) : P jsval :=
  if nullish v then throw (TypeError_read engine v k)
  else ret (own_field v k).

Definition JSON_parse (text : string) : P jsval :=
  match Json.parse text with
  | Some v => ret v
  | None => throw (SyntaxError_json engine text)
  end.

(** The form of lines 32-35. *)
Definition upload (chunks : list (list byte)) : FormData.t :=
  [("audio", EntryFile (Blob chunks "audio/webm" "recording.webm"))].

(** [fetch(...)] of lines 38-41: the request goes out, then the promise
    settles as the network decides. *)
Definition fetch (r : Request) (network : completion Reply) : P Reply :=
  fun s => (network, emit (Fetched r) s).

(** Lines 43-58: the message of the error thrown for a reply that is not
    ok. *)
Definition error_message (response : Reply) : P jsval :=
  rawErrorText <- await (text response) ;;
  let errorMessage :=
    "Server error: " ++ decimal (status response) ++ " "
    ++ statusText response in
  try_catch
    (errorData <- JSON_parse rawErrorText ;;
     e <- member errorData "error" ;;
     ret (or_else e (JStr errorMessage)))
    (fun _ =>
       console_error [Text "Server returned non-JSON error response:";
                      Text rawErrorText] ;;
       ret (JStr ("Server returned an unexpected error: " ++ rawErrorText
                  ++ ". (See console for details)"))).

(** The [try] block of lines 37-65. *)
Definition transcribe (formData : FormData.t) (network : completion Reply)
  : P unit :=
  response <-
    fetch {| url := "/api/transcribe"; method := "POST"; body := formData |}
          network ;;
  if negb (ok response) then
    errorMessage <- error_message response ;;
    message <- to_string errorMessage ;;
    throw (new_Error message)
  else
    data <- (t <- await (text response) ;; JSON_parse t) ;;
    found <- member data "transcript" ;;
    update (setTranscript found) ;;
    toast {| title := "Transcription Complete";
             description := "Your speech has been successfully transcribed.";
             destructive := false |}.

(** The [catch] block of lines 66-72. *)
Definition transcription_failed (error : JsError) : P unit :=
  console_error [Text "Client-side transcription error:"; Err error] ;;
  toast {| title := "Transcription Failed";
           description :=
             if negb (Effects.message error =? "")
             then Effects.message error
             else "An unknown error occurred during transcription. Please try again.";
           destructive := true |}.

(** The [finally] block of lines 73-77: the handler's own stream is let
    go. *)
Definition release (s : t) : t :=
  setLiveStreams (Nat.pred (liveStreams s)) (setIsTranscribing false s).

(** [mediaRecorderRef.current.onstop], lines 29-78. *)
Definition onstop (network : completion Reply) : P unit :=
  update (setIsRecording false) ;;
  update (setIsTranscribing true) ;;
  (fun s =>
     let formData := upload (audioChunks s) in
     try_finally
       (try_catch (transcribe formData network) transcription_failed)
       release s).

(** [mediaRecorderRef.current.ondataavailable], lines 25-27. *)
Definition ondataavailable (data : list byte) : P unit :=
  update (fun s => setAudioChunks (audioChunks s ++ [data])%list s).

(** [startRecording], lines 19-95.  The three arguments are how
    [getUserMedia], [new MediaRecorder(stream)] and [start()] end. *)
Definition startRecording
    (getUserMedia newMediaRecorder start : completion unit) : P unit :=
  try_catch
    (await getUserMedia ;;
     update (fun s => setLiveStreams (S (liveStreams s)) s) ;;
     await newMediaRecorder ;;
     update (setMediaRecorder (Some inactive)) ;;
     update (setAudioChunks []) ;;
     await start ;;
     update (setMediaRecorder (Some recording)) ;;
     update (setIsRecording true) ;;
     update (setTranscript (JStr "")) ;;
     toast {| title := "Recording started";
              description := "Speak clearly into your microphone.";
              destructive := false |})
    (fun error =>
       console_error [Text "Microphone access error:"; Err error] ;;
       toast {| title := "Microphone Access Denied";
                description :=
                  "Please allow microphone access in your browser settings.";
                destructive := true |}).

(** [stopRecording], lines 97-105. *)
Definition stopRecording : P unit :=
  fun s =>
    match mediaRecorder s with
    | Some recording =>
        (update (setMediaRecorder (Some inactive)) ;;
         toast {| title := "Recording stopped";
                  description := "Transcribing audio...";
                  destructive := false |}) s
    | _ => ret tt s
    end.

(** [clearTranscript], lines 107-113. *)
Definition clearTranscript : P unit :=
  update (setTranscript (JStr "")) ;;
  toast {| title := "Transcript cleared";
           description := "Ready for new speech recognition";
           destructive := false |}.

(** [copyToClipboard], lines 115-129; [writeText] is how
    [navigator.clipboard.writeText] ends. *)
Definition copyToClipboard (writeText : completion unit) : P unit :=
  try_catch
    (await writeText ;;
     (fun s => update (emit (Copied (transcript s))) s) ;;
     toast {| title := "Copied to clipboard";
              description := "Transcript has been copied successfully";
              destructive := false |})
    (fun _ =>
       toast {| title := "Copy failed";
                description := "Unable to copy to clipboard";
                destructive := true |}).

(** [downloadTranscript], lines 131-143; [iso] is
    [new Date().toISOString()]. *)
Definition downloadTranscript (iso : string) : P unit :=
  (fun s =>
     update (emit (Downloaded ("transcript-" ++ before_T iso ++ ".txt")
                              "text/plain" (transcript s))) s) ;;
  toast {| title := "Download started";
           description := "Transcript file is being downloaded";
           destructive := false |}.

(** [speakText], lines 145-152; [available] is
    ["speechSynthesis" in window]. *)
Definition speakText (available : bool) : P unit :=
  fun s =>
    if available && truthy (transcript s)
    then update (emit (Spoke (transcript s) "en-US")) s
    else ret tt s.

(** The chunks delivered one after the other. *)
Fixpoint deliver (chunks : list (list byte)) : P unit :=
  match chunks with
  | [] => ret tt
  | c :: rest => bind (ondataavailable c) (fun _ => deliver rest)
  end.

(** A whole session, from the click on "Start Recording" to the end of
    [onstop]: chunks arrive while recording, the click on "Stop Recording"
    follows, the recorder hands over what it still holds and fires
    [stop]. *)
Definition session (during flushed : list (list byte))
    (network : completion Reply) : P unit :=
  bind (startRecording (Returned tt) (Returned tt) (Returned tt))
    (fun _ => bind (deliver during)
    (fun _ => bind stopRecording
    (fun _ => bind (deliver flushed)
    (fun _ => onstop network)))).

End Handlers.

End Page.


(** ** What the page shows *)

(** The toasts and the requests among some events. *)
Fixpoint toasts_in (es : list Page.Event) : list Page.Toast :=
  match es with
  | [] => []
  | Page.Toasted t :: es' => t :: toasts_in es'
  | _ :: es' => toasts_in es'
  end.

Fixpoint requests_in (es : list Page.Event) : list Page.Request :=
  match es with
  | [] => []
  | Page.Fetched r :: es' => r :: requests_in es'
  | _ :: es' => requests_in es'
  end.

Definition transcription_request (s : Page.t) : Page.Request :=
  {| Page.url := "/api/transcribe"; Page.method := "POST";
     Page.body := Page.upload (Page.audioChunks s) |}.

Definition complete_toast : Page.Toast :=
  {| Page.title := "Transcription Complete";
     Page.description := "Your speech has been successfully transcribed.";
     Page.destructive := false |}.

Definition failed_toast (description : string) : Page.Toast :=
  {| Page.title := "Transcription Failed";
     Page.description := description;
     Page.destructive := true |}.

Definition client_error_line (e : JsError) : line :=
  {| lvl := Error; args := [Text "Client-side transcription error:"; Err e] |}.

Definition non_json_line (raw : string) : line :=
  {| lvl := Error;
     args := [Text "Server returned non-JSON error response:"; Text raw] |}.

Definition denied_toast : Page.Toast :=
  {| Page.title := "Microphone Access Denied";
     Page.description :=
       "Please allow microphone access in your browser settings.";
     Page.destructive := true |}.

Definition microphone_error_line (e : JsError) : line :=
  {| lvl := Error; args := [Text "Microphone access error:"; Err e] |}.

(** ** The page and the handler together *)

(** [response.ok] as the status decides it. *)
Definition in_2xx (status : Z) : bool :=
  ((200 <=? status) && (status <=? 299))%Z.

(** The reply the page's [fetch] resolves with carries the handler's
    response: its status, [ok] for a status from 200 to 299, and a body
    text that parses to the handler's body. *)
Definition delivers (r : NextResponse.t) (reply : Page.Reply) : Prop :=
  Page.status reply = NextResponse.status r
  /\ Page.ok reply = in_2xx (NextResponse.status r)
  /\ exists text, Page.text reply = Returned text
                  /\ Json.parse text = Some (NextResponse.body r).

(** ** More sample inputs *)

Definition text_field (value : string) : NextRequest.t :=
  {| NextRequest.formData := Returned [("audio", EntryString value)] |}.

Definition fetch_failed : JsError :=
  {| message := "fetch failed"; stringified := "{}" |}.

Definition body_aborted : JsError :=
  {| message := "terminated"; stringified := "{}" |}.

Definition not_allowed : JsError :=
  {| message := "Permission denied"; stringified := "{}" |}.

(** [{"results":{"channels":[{"alternatives":[{"transcript":42}]}]}}] *)
Definition transcript_42 : string :=
  "{" ++ quoted "results" ++ ":{" ++ quoted "channels" ++ ":[{"
  ++ quoted "alternatives" ++ ":[{" ++ quoted "transcript" ++ ":42}]}]}}".

(** [{"transcript":"hello world"}] *)
Definition hello_answer : string :=
  "{" ++ quoted "transcript" ++ ":" ++ quoted "hello world" ++ "}".

(** [{"error":"No audio file provided."}] *)
Definition no_audio_answer : string :=
  "{" ++ quoted "error" ++ ":" ++ quoted "No audio file provided." ++ "}".

(** [{"detail":"busy"}] *)
Definition busy_answer : string :=
  "{" ++ quoted "detail" ++ ":" ++ quoted "busy" ++ "}".

Definition reply (ok : bool) (status : Z) (statusText text : string)
  : Page.Reply :=
  {| Page.ok := ok; Page.status := status; Page.statusText := statusText;
     Page.text := Returned text |}.

(** A [ToString] for the examples; no example reaches it. *)
Definition object_Object (v : jsval) : completion string :=
  Returned "[object Object]".

(** An engine for running the handler on examples, with the wording of
    Node.js: V8's for a property read on [null] or [undefined] and for a
    JSON text that is short and wrong from its first character on (or
    empty), the runtime's for the two status errors. *)
Definition v8 : Engine :=
  {| TypeError_read := fun v k =>
       {| message :=
            "Cannot read properties of "
            ++ (match v with JNull => "null" | _ => "undefined" end)
            ++ " (reading '" ++ k ++ "')";
          stringified := "{}" |};
     SyntaxError_json := fun t =>
       {| message :=
            match Json.skip_ws t with
            | EmptyString => "Unexpected end of JSON input"
            | String c _ =>
                "Unexpected token '" ++ String c "', " ++ quoted t
                ++ " is not valid JSON"
            end;
          stringified := "{}" |};
     RangeError_status := fun s =>
       {| message :=
            "init[" ++ quoted "status"
            ++ "] must be in the range of 200 to 599, inclusive.";
          stringified := "{}" |};
     TypeError_null_body := fun s =>
       {| message :=
            "Response constructor: Invalid response status code "
            ++ Page.decimal s;
          stringified := "{}" |} |}.

(** [{"results":{"channels":[{"alternatives":[{"transcript":1e400}]}]}}] *)
Definition transcript_1e400 : string :=
  "{" ++ quoted "results" ++ ":{" ++ quoted "channels" ++ ":[{"
  ++ quoted "alternatives" ++ ":[{" ++ quoted "transcript" ++ ":1e400}]}]}}".

(** [{"results":{"channels":[{"alternatives":[{"transcript":9007199254740993}]}]}}] *)
Definition transcript_2_53_plus_1 : string :=
  "{" ++ quoted "results" ++ ":{" ++ quoted "channels" ++ ":[{"
  ++ quoted "alternatives" ++ ":[{" ++ quoted "transcript"
  ++ ":9007199254740993}]}]}}".

(** [{"error":1e400}] *)
Definition error_1e400 : string := "{" ++ quoted "error" ++ ":1e400}".

(** The page after two chunks have arrived. *)
Definition two_chunks : Page.t :=
  Page.setAudioChunks [[x1a; x45]; [xdf; xa3]] Page.initial.

(** ** Steps of the handler *)

Section Steps.

Variable engine : Engine.

Lemma guarded_configured env key req network :
  configured env key ->
  guarded engine env req network =
  bind (await (NextRequest.formData req)) (fun formData =>
    match FormData.get "audio" formData with
    | None | Some (EntryString "") => no_audio engine
    | Some (EntryString _) =>
        throw (TypeError_read engine JUndefined "startsWith")
    | Some (EntryFile audioFile) => forward engine key audioFile network
    end).
Proof.
  intros [-> Hkey]. destruct key as [|c k]; [congruence | reflexivity].
Qed.

Lemma run_guarded_file env key req f network :
  configured env key -> submits req f ->
  run (guarded engine env req network) = forward engine key f network quiet.
Proof.
  intros Hc (fd & Hfd & Hget).
  rewrite (guarded_configured _ _ _ _ Hc).
  unfold run, bind, await. rewrite Hfd, Hget. reflexivity.
Qed.

Lemma forward_sent key f network :
  audio_type f = true ->
  forward engine key f network quiet =
  match network with
  | Returned r => interpret engine r (sent key f)
  | Thrown e => (Thrown e, sent key f)
  end.
Proof.
  unfold audio_type, forward. intros ->.
  destruct network; reflexivity.
Qed.

Lemma POST_of_guarded env req network :
  run (POST engine env req network) =
  match run (guarded engine env req network) with
  | (Returned r, t) => (Returned r, t)
  | (Thrown e, t) => recover engine e t
  end.
Proof. reflexivity. Qed.

(** The [catch] block on an object, and on the two values without
    properties. *)
Lemma recover_object (e : JsError) t :
  recover engine e t = (Returned (failed e), push (fault_line e) t).
Proof. reflexivity. Qed.

Lemma recover_null t :
  recover engine ThrownNull t
  = (Thrown (ThrownObject (TypeError_read engine JNull "message")),
     push (fault_line ThrownNull) t).
Proof. reflexivity. Qed.

Lemma recover_undefined t :
  recover engine ThrownUndefined t
  = (Thrown (ThrownObject (TypeError_read engine JUndefined "message")),
     push (fault_line ThrownUndefined) t).
Proof. reflexivity. Qed.

Lemma recover_unread v e t :
  unread engine v = Some e ->
  recover engine v t = (Thrown (ThrownObject e), push (fault_line v) t).
Proof.
  destruct v; try discriminate; intros H; injection H as <-; reflexivity.
Qed.

(** [NextResponse.json] by the statuses it accepts. *)
Lemma json_takes_body b s :
  NextResponse.json engine b s
  = if NextResponse.takes_body s
    then Returned {| NextResponse.status := s; NextResponse.body := wire b |}
    else Thrown (ThrownObject (NextResponse.status_error engine s)).
Proof.
  unfold NextResponse.json, NextResponse.takes_body, NextResponse.status_error.
  rewrite (Z.ltb_antisym 200 s), (Z.ltb_antisym s 599).
  destruct (200 <=? s)%Z, (s <=? 599)%Z, (NextResponse.null_body_status s);
    reflexivity.
Qed.

End Steps.

(** ** What serialisation keeps *)

Lemma truthy_defined v : truthy v = true -> v <> JUndefined.
Proof. intros H ->. discriminate. Qed.

Lemma wire_defined v : v <> JUndefined -> wire v <> JUndefined.
Proof.
  destruct v as [| | b | d | s | items | fields]; try congruence;
    try discriminate.
  destruct d; discriminate.
Qed.

(** An object of one field whose value is there keeps the field. *)
Lemma wire_field k v :
  v <> JUndefined -> wire (JObj [(k, v)]) = JObj [(k, wire v)].
Proof.
  intros H. apply wire_defined in H. cbn.
  destruct (wire v); try reflexivity. congruence.
Qed.

(** Only a string leaves as a string, and it leaves as it is. *)
Lemma wire_string v s : wire v = JStr s -> v = JStr s.
Proof.
  destruct v as [| | b | d | s' | items | fields]; try discriminate.
  - destruct d; discriminate.
  - exact (fun H => H).
Qed.


Section Parser.

Import Json.

Lemma skip_ws_le s : (String.length (skip_ws s) <= String.length s)%nat.
Proof.
  induction s as [|c s IH]; simpl; [lia|].
  destruct (is_ws c); simpl; lia.
Qed.

Lemma digits_le s : forall a c a' c' r,
  digits a c s = (a', c', r) -> (String.length r <= String.length s)%nat.
Proof.
  induction s as [|x s IH]; simpl; intros a c a' c' r H.
  - injection H as _ _ <-. simpl. lia.
  - destruct (digit_of x).
    + apply IH in H. lia.
    + injection H as _ _ <-. simpl. lia.
Qed.

Lemma parse_exponent_le sign m n s v r :
  parse_exponent sign m n s = Some (v, r) -> (String.length r <= String.length s)%nat.
Proof.
  unfold parse_exponent. destruct s as [|c s].
  - intros H. injection H as _ <-. lia.
  - destruct (_ || _).
    + destruct (match s with
                | "" => (1%Z, s)
                | String c1 r' =>
                    if (code c1 =? 43)%N then (1%Z, r')
                    else if (code c1 =? 45)%N then ((-1)%Z, r') else (1%Z, s)
                end) as [sg r1] eqn:E.
      assert (String.length r1 <= String.length s)%nat as Hr1.
      { destruct s as [|c1 r']; [injection E as _ <-; lia|].
        destruct (code c1 =? 43)%N; [injection E as _ <-; simpl; lia|].
        destruct (code c1 =? 45)%N; injection E as _ <-; simpl; lia. }
      destruct (digits 0 0 r1) as [[x k] r2] eqn:D. apply digits_le in D.
      destruct (k =? 0)%Z; [discriminate|].
      intros H. injection H as _ <-. simpl. lia.
    + intros H. injection H as _ <-. lia.
Qed.

Lemma parse_fraction_le sign ip s v r :
  parse_fraction sign ip s = Some (v, r) -> (String.length r <= String.length s)%nat.
Proof.
  unfold parse_fraction. destruct s as [|c s].
  - apply parse_exponent_le.
  - destruct (code c =? 46)%N.
    + destruct (digits ip 0 s) as [[m n] r1] eqn:D. apply digits_le in D.
      destruct (n =? 0)%Z; [discriminate|].
      intros H. apply parse_exponent_le in H. simpl. lia.
    + apply parse_exponent_le.
Qed.

Lemma parse_number_lt s v r :
  parse_number s = Some (v, r) -> (String.length r < String.length s)%nat.
Proof.
  unfold parse_number.
  destruct (match s with
            | "" => (1%Z, s)
            | String c r0 => if (code c =? 45)%N then ((-1)%Z, r0) else (1%Z, s)
            end) as [sign s1] eqn:E.
  assert (String.length s1 <= String.length s)%nat as Hs1.
  { destruct s as [|c r0]; [injection E as _ <-; lia|].
    destruct (code c =? 45)%N; injection E as _ <-; simpl; lia. }
  destruct s1 as [|c r0]; [discriminate|].
  destruct (digit_of c); [|discriminate].
  destruct (z =? 0)%Z.
  - intros H. apply parse_fraction_le in H. simpl in Hs1. lia.
  - destruct (digits z 1 r0) as [[ip k] r1] eqn:D. apply digits_le in D.
    intros H. apply parse_fraction_le in H. simpl in Hs1. lia.
Qed.

Lemma strip_len word : forall s r,
  strip word s = Some r -> String.length s = (String.length word + String.length r)%nat.
Proof.
  induction word as [|a w IH]; simpl; intros s r H.
  - injection H as <-. reflexivity.
  - destruct s as [|b s]; [discriminate|].
    destruct (Ascii.eqb a b); [|discriminate].
    apply IH in H. simpl. lia.
Qed.

Lemma hex4_len s h r : hex4 s = Some (h, r) -> String.length s = (4 + String.length r)%nat.
Proof.
  unfold hex4.
  destruct s as [|a [|b [|c [|d s]]]]; try discriminate.
  destruct (hex_of a), (hex_of b), (hex_of c), (hex_of d); try discriminate.
  intros H. injection H as _ <-. reflexivity.
Qed.

Lemma low_surrogate_len s l r :
  low_surrogate s = Some (l, r) -> String.length s = (6 + String.length r)%nat.
Proof.
  unfold low_surrogate.
  destruct s as [|b [|u s]]; try discriminate.
  destruct (_ && _); [|discriminate].
  destruct (hex4 s) as [[l' r']|] eqn:E; [|discriminate].
  apply hex4_len in E.
  destruct (_ && _); [|discriminate].
  intros H. injection H as _ <-. simpl. lia.
Qed.

Lemma prepend_some p x t r :
  prepend p x = Some (t, r) -> exists t', x = Some (t', r).
Proof.
  destruct x as [[t' r']|]; simpl; [|discriminate].
  intros H. injection H as _ <-. eauto.
Qed.

Lemma parse_chars_lt f : forall s t r,
  parse_chars f s = Some (t, r) -> (String.length r < String.length s)%nat.
Proof.
  induction f as [|f IH]; [discriminate|].
  intros s t r. simpl. destruct s as [|c s]; [discriminate|].
  destruct (code c =? 34)%N.
  { intros H. injection H as _ <-. simpl. lia. }
  destruct (code c =? 92)%N.
  { destruct s as [|e r1]; [discriminate|].
    destruct (simple_escape e).
    { intros H. apply prepend_some in H as [t' H]. apply IH in H.
      simpl. lia. }
    destruct (code e =? 117)%N; [|discriminate].
    destruct (hex4 r1) as [[h r2]|] eqn:Hh; [|discriminate].
    apply hex4_len in Hh.
    destruct (_ && _).
    - destruct (low_surrogate r2) as [[l r3]|] eqn:Hl.
      + apply low_surrogate_len in Hl.
        intros H. apply prepend_some in H as [t' H]. apply IH in H.
        simpl. lia.
      + intros H. apply prepend_some in H as [t' H]. apply IH in H.
        simpl. lia.
    - intros H. apply prepend_some in H as [t' H]. apply IH in H.
      simpl. lia. }
  destruct (code c <? 32)%N; [discriminate|].
  intros H. apply prepend_some in H as [t' H]. apply IH in H. simpl. lia.
Qed.

Lemma parse_string_lt s t r :
  parse_string s = Some (t, r) -> (String.length r < String.length s)%nat.
Proof. apply parse_chars_lt. Qed.

(** Fuel beyond the length changes nothing in a string literal. *)
Lemma parse_chars_fuel f : forall s g,
  (String.length s < f)%nat -> (String.length s < g)%nat -> parse_chars f s = parse_chars g s.
Proof.
  induction f as [|f IH]; [intros; lia|].
  intros s [|g] Hf Hg; [lia|]. simpl.
  destruct s as [|c s]; [reflexivity|]. simpl in Hf, Hg.
  destruct (code c =? 34)%N; [reflexivity|].
  destruct (code c =? 92)%N.
  { destruct s as [|e r1]; [reflexivity|]. simpl in Hf, Hg.
    destruct (simple_escape e).
    { rewrite (IH r1 g) by lia. reflexivity. }
    destruct (code e =? 117)%N; [|reflexivity].
    destruct (hex4 r1) as [[h r2]|] eqn:Hh; [|reflexivity].
    apply hex4_len in Hh.
    destruct (_ && _).
    - destruct (low_surrogate r2) as [[l r3]|] eqn:Hl.
      + apply low_surrogate_len in Hl. rewrite (IH r3 g) by lia. reflexivity.
      + rewrite (IH r2 g) by lia. reflexivity.
    - rewrite (IH r2 g) by lia. reflexivity. }
  destruct (code c <? 32)%N; [reflexivity|].
  rewrite (IH s g) by lia. reflexivity.
Qed.


Lemma enough_value_step f :
  enough_elements f -> enough_members f -> enough_value (S f).
Proof.
  intros IHe IHm s v r H. simpl in H.
  pose proof (skip_ws_le s) as Hs0.
  destruct (skip_ws s) as [|c s1] eqn:Hs; [discriminate|]. simpl in Hs0.
  destruct (code c =? 123)%N eqn:E1.
  { pose proof (skip_ws_le s1) as Hs1.
    destruct (skip_ws s1) as [|c1 r1] eqn:Hr; [discriminate|]. simpl in Hs1.
    destruct (code c1 =? 125)%N eqn:E2.
    - injection H as <- <-. split; [lia|].
      intros [|g] Hg; [lia|]. simpl. rewrite Hs, E1, Hr, E2. reflexivity.
    - apply IHm in H as [Hlt Hg0]. simpl in Hlt. split; [lia|].
      intros [|g] Hg; [lia|]. simpl. rewrite Hs, E1, Hr, E2.
      apply Hg0. cbn [String.length]. lia. }
  destruct (code c =? 91)%N eqn:E2.
  { pose proof (skip_ws_le s1) as Hs1.
    destruct (skip_ws s1) as [|c1 r1] eqn:Hr; [discriminate|]. simpl in Hs1.
    destruct (code c1 =? 93)%N eqn:E3.
    - injection H as <- <-. split; [lia|].
      intros [|g] Hg; [lia|]. simpl. rewrite Hs, E1, E2, Hr, E3. reflexivity.
    - apply IHe in H as [Hlt Hg0]. simpl in Hlt. split; [lia|].
      intros [|g] Hg; [lia|]. simpl. rewrite Hs, E1, E2, Hr, E3.
      apply Hg0. cbn [String.length]. lia. }
  assert (forall g, (2 * (String.length s - String.length r) <= g)%nat -> (String.length r < String.length s)%nat ->
                    parse_value g s = parse_value (S f) s) as Hsame.
  { intros [|g] Hg Hlt; [lia|]. simpl. rewrite Hs, E1, E2. reflexivity. }
  assert (String.length r < String.length s)%nat as Hlt.
  { destruct (code c =? 34)%N.
    - destruct (parse_string s1) as [[t r1]|] eqn:Hp; [|discriminate].
      apply parse_string_lt in Hp. injection H as _ <-. lia.
    - unfold literal in H.
      destruct (code c =? 116)%N.
      { destruct (strip _ _) eqn:Hl in H; [|discriminate].
        apply strip_len in Hl. injection H as _ <-. simpl in Hl. simpl. lia. }
      destruct (code c =? 102)%N.
      { destruct (strip _ _) eqn:Hl in H; [|discriminate].
        apply strip_len in Hl. injection H as _ <-. simpl in Hl. simpl. lia. }
      destruct (code c =? 110)%N.
      { destruct (strip _ _) eqn:Hl in H; [|discriminate].
        apply strip_len in Hl. injection H as _ <-. simpl in Hl. simpl. lia. }
      apply parse_number_lt in H. simpl in H. lia. }
  split; [exact Hlt|].
  intros g Hg. rewrite (Hsame g Hg Hlt). simpl. rewrite Hs, E1, E2. exact H.
Qed.


Lemma enough_elements_step f :
  enough_value f -> enough_elements f -> enough_elements (S f).
Proof.
  intros IHv IHe acc s v r H. simpl in H.
  destruct (parse_value f s) as [[v0 r0]|] eqn:Hv; [|discriminate].
  apply IHv in Hv as [Hlt0 Hv].
  pose proof (skip_ws_le r0) as Hs0.
  destruct (skip_ws r0) as [|c r1] eqn:Hr; [discriminate|]. simpl in Hs0.
  destruct (code c =? 44)%N eqn:E1.
  - apply IHe in H as [Hlt He]. split; [lia|].
    intros [|g] Hg; [lia|]. simpl.
    rewrite (Hv g) by lia. rewrite Hr, E1. apply He. lia.
  - destruct (code c =? 93)%N eqn:E2; [|discriminate].
    injection H as <- <-. split; [lia|].
    intros [|g] Hg; [lia|]. simpl.
    rewrite (Hv g) by lia. rewrite Hr, E1, E2. reflexivity.
Qed.

Lemma enough_members_step f :
  enough_value f -> enough_members f -> enough_members (S f).
Proof.
  intros IHv IHm acc s v r H. simpl in H.
  pose proof (skip_ws_le s) as Hs0.
  destruct (skip_ws s) as [|q s1] eqn:Hs; [discriminate|]. simpl in Hs0.
  destruct (code q =? 34)%N eqn:E1; [|discriminate].
  destruct (parse_string s1) as [[k r1]|] eqn:Hk; [|discriminate].
  pose proof (parse_string_lt _ _ _ Hk) as Hk1.
  pose proof (skip_ws_le r1) as Hs1.
  destruct (skip_ws r1) as [|c r2] eqn:Hr1; [discriminate|]. simpl in Hs1.
  destruct (code c =? 58)%N eqn:E2; [|discriminate].
  destruct (parse_value f r2) as [[v0 r3]|] eqn:Hv; [|discriminate].
  apply IHv in Hv as [Hlt0 Hv].
  pose proof (skip_ws_le r3) as Hs3.
  destruct (skip_ws r3) as [|d r4] eqn:Hr3; [discriminate|]. simpl in Hs3.
  destruct (code d =? 44)%N eqn:E3.
  - apply IHm in H as [Hlt Hm]. split; [lia|].
    intros [|g] Hg; [lia|]. simpl.
    rewrite Hs, E1, Hk, Hr1, E2. rewrite (Hv g) by lia.
    rewrite Hr3, E3. apply Hm. lia.
  - destruct (code d =? 125)%N eqn:E4; [|discriminate].
    injection H as <- <-. split; [lia|].
    intros [|g] Hg; [lia|]. simpl.
    rewrite Hs, E1, Hk, Hr1, E2. rewrite (Hv g) by lia.
    rewrite Hr3, E3, E4. reflexivity.
Qed.

Lemma enough_all f : enough_value f /\ enough_elements f /\ enough_members f.
Proof.
  induction f as [|f (IHv & IHe & IHm)].
  - split; [|split]; intros ? **; discriminate.
  - split; [|split].
    + apply enough_value_step; assumption.
    + apply enough_elements_step; assumption.
    + apply enough_members_step; assumption.
Qed.

(** Fuel beyond twice the length changes nothing: [Json.parse] is the
    parser, not a cut of it. *)
Theorem parse_fuel text f :
  (2 * String.length text + 2 <= f)%nat -> parse_all f text = parse text.
Proof.
  intros Hf. unfold parse, parse_all.
  destruct (parse_value f text) as [[v r]|] eqn:E1.
  - apply (proj1 (enough_all f)) in E1 as [_ E1].
    rewrite E1 by lia. reflexivity.
  - destruct (parse_value (2 * String.length text + 2) text) as [[v r]|] eqn:E2;
      [|reflexivity].
    apply (proj1 (enough_all _)) in E2 as [_ E2].
    rewrite E2 in E1 by lia. discriminate.
Qed.

Lemma parse_value_defined :
  forall fuel,
    (forall s v r, Json.parse_value fuel s = Some (v, r) -> v <> JUndefined)
    /\ (forall acc s v r, Json.parse_elements fuel acc s = Some (v, r) ->
                          v <> JUndefined)
    /\ (forall acc s v r, Json.parse_members fuel acc s = Some (v, r) ->
                          v <> JUndefined).
Proof.
  induction fuel as [|f (IHv & IHe & IHm)]; [repeat split; discriminate|].
  repeat split.
  - intros s v r. simpl.
    destruct (Json.skip_ws s) as [|c s']; [discriminate|].
    repeat match goal with
           | |- context [if ?b then _ else _] => destruct b
           | |- context [match Json.skip_ws ?x with _ => _ end] =>
               destruct (Json.skip_ws x)
           | |- context [match Json.parse_string ?x with _ => _ end] =>
               destruct (Json.parse_string x) as [[? ?]|]
           end;
      try discriminate; eauto;
      try (intros H; injection H as <- _; discriminate).
    all: unfold Json.literal, Json.parse_number, Json.parse_fraction,
           Json.parse_exponent;
      repeat match goal with
             | |- context [if ?b then _ else _] => destruct b
             | |- context [match ?x with _ => _ end] => destruct x
             end;
      try discriminate; intros H; injection H as <- _; discriminate.
  - intros acc s v r. simpl.
    destruct (Json.parse_value f s) as [[v0 r0]|]; [|discriminate].
    destruct (Json.skip_ws r0) as [|c r1]; [discriminate|].
    destruct (_ =? 44)%N; [eauto|].
    destruct (_ =? 93)%N; [|discriminate].
    intros H; injection H as <- _; discriminate.
  - intros acc s v r. simpl.
    destruct (Json.skip_ws s) as [|q s']; [discriminate|].
    destruct (_ =? 34)%N; [|discriminate].
    destruct (Json.parse_string s') as [[k r1]|]; [|discriminate].
    destruct (Json.skip_ws r1) as [|c r2]; [discriminate|].
    destruct (_ =? 58)%N; [|discriminate].
    destruct (Json.parse_value f r2) as [[v0 r3]|]; [|discriminate].
    destruct (Json.skip_ws r3) as [|d r4]; [discriminate|].
    destruct (_ =? 44)%N; [eauto|].
    destruct (_ =? 125)%N; [|discriminate].
    intros H; injection H as <- _; discriminate.
Qed.

(** [JSON.parse] never answers [undefined]. *)
Lemma parse_defined text v : Json.parse text = Some v -> v <> JUndefined.
Proof.
  unfold Json.parse, Json.parse_all.
  destruct (Json.parse_value _ text) as [[v0 r]|] eqn:E; [|discriminate].
  destruct (Json.skip_ws r); [|discriminate].
  intros H; injection H as <-.
  eapply (proj1 (parse_value_defined _)); eassumption.
Qed.

Lemma parsed_nullish text v :
  Json.parse text = Some v -> v <> JNull -> nullish v = false.
Proof.
  intros Hp Hn. pose proof (parse_defined _ _ Hp).
  destruct v; try reflexivity; congruence.
Qed.

End Parser.


Section Interpret.

Variable engine : Engine.

Lemma or_else_truthy a b : truthy b = true -> truthy (or_else a b) = true.
Proof. unfold or_else. destruct (truthy a) eqn:E; auto. Qed.

Lemma surfaced_is_truthy errorText : truthy (surfaced errorText) = true.
Proof.
  unfold surfaced.
  destruct (Json.parse errorText) as [[]|];
    try reflexivity; repeat apply or_else_truthy; reflexivity.
Qed.

(** Under a status that [NextResponse.json] refuses, the inner [catch]
    makes the same call and throws the same error. *)
Lemma interpret_failure r errorText tr :
  Response.ok r = false ->
  Response.text r = Returned errorText ->
  interpret engine r tr =
  (NextResponse.json engine (error_body (surfaced errorText))
                     (Response.status r),
   push (provider_error_line r errorText) tr).
Proof.
  intros Hok Htext. unfold interpret. rewrite Hok. cbn [negb].
  unfold bind at 1. unfold await at 1. rewrite Htext.
  unfold bind at 1. cbn [console_error emit].
  unfold try_catch, bind, JSON_parse, surfaced, await.
  destruct (Json.parse errorText) as [v|] eqn:Hp.
  2: { cbn. destruct (NextResponse.json engine _ _); reflexivity. }
  pose proof (parse_defined _ _ Hp) as Hdef.
  unfold ret, throw, provider_message, member, bind.
  destruct v; try congruence;
    cbn [nullish own_field truthy or_else ret throw];
    unfold ret, or_else;
    repeat match goal with
           | |- context [if truthy ?x then _ else _] =>
               destruct (truthy x) eqn:?
           end;
    rewrite ?(json_takes_body engine);
    destruct (NextResponse.takes_body (Response.status r)); reflexivity.
Qed.

(** Off the body [null], the amended value is the spec's. *)
Lemma surfaced_as_specified errorText :
  Json.parse errorText <> Some JNull ->
  surfaced errorText = spec_surfaced errorText.
Proof.
  unfold surfaced, spec_surfaced.
  destruct (Json.parse errorText) as [[]|]; congruence.
Qed.

Lemma interpret_success r text d tr :
  Response.ok r = true ->
  Response.text r = Returned text ->
  Json.parse text = Some d ->
  nullish d = false ->
  interpret engine r tr =
  if truthy (first_transcript d)
  then (Returned
          {| NextResponse.status := 200;
             NextResponse.body :=
               JObj [("transcript", wire (first_transcript d))] |},
        tr)
  else (Returned no_transcript, push no_transcript_line tr).
Proof.
  intros Hok Htext Hp Hn. unfold interpret. rewrite Hok. cbn [negb].
  unfold Response_json, bind, await. rewrite Htext.
  unfold JSON_parse. rewrite Hp. unfold ret, transcript_path, member, bind.
  rewrite Hn. unfold ret, or_else. fold (first_transcript d).
  destruct (truthy (first_transcript d)) eqn:Ht.
  - rewrite Ht. cbn [negb]. unfold NextResponse.json. cbn [Z.ltb Z.compare
      Pos.compare Pos.compare_cont orb NextResponse.null_body_status Z.eqb
      Pos.eqb].
    unfold transcript_body. rewrite (wire_field _ _ (truthy_defined _ Ht)).
    reflexivity.
  - reflexivity.
Qed.

Lemma interpret_null r text tr :
  Response.ok r = true ->
  Response.text r = Returned text ->
  Json.parse text = Some JNull ->
  interpret engine r tr
  = (Thrown (ThrownObject (TypeError_read engine JNull "results")), tr).
Proof.
  intros Hok Htext Hp. unfold interpret. rewrite Hok. cbn [negb].
  unfold Response_json, bind, await. rewrite Htext.
  unfold JSON_parse. rewrite Hp. reflexivity.
Qed.

Lemma shape_first_transcript t d :
  transcript_shape t d -> first_transcript d = JStr t.
Proof.
  intros [top results channels c0 alternatives a0 H1 H2 H3 H4].
  unfold first_transcript. cbn [own_field]. rewrite H1.
  unfold opt_field at 3. cbn [nullish own_field]. rewrite H2.
  unfold opt_first at 2. cbn [nullish own_first].
  unfold opt_field at 2. cbn [nullish own_field]. rewrite H3.
  unfold opt_first. cbn [nullish own_first].
  unfold opt_field. cbn [nullish own_field]. exact H4.
Qed.

End Interpret.


Section Logics.

Context {A B : Type}.

Lemma silent_ret (a : A) : silent (ret a).
Proof. intros t. reflexivity. Qed.

Lemma silent_throw e : silent (@throw A e).
Proof. intros t. reflexivity. Qed.

Lemma silent_await (c : settlement A) : silent (await c).
Proof. intros t. reflexivity. Qed.

Lemma silent_emit l a : silent (emit l a).
Proof. intros t. reflexivity. Qed.

Lemma silent_bind (m : M A) (k : A -> M B) :
  silent m -> (forall a, silent (k a)) -> silent (bind m k).
Proof.
  intros Hm Hk t. unfold bind. specialize (Hm t).
  destruct (m t) as [[a | e] t']; cbn [snd] in *.
  - rewrite Hk. exact Hm.
  - exact Hm.
Qed.

Lemma silent_try_catch (m : M A) (h : thrown -> M A) :
  silent m -> (forall e, silent (h e)) -> silent (try_catch m h).
Proof.
  intros Hm Hh t. unfold try_catch. specialize (Hm t).
  destruct (m t) as [[a | e] t']; cbn [snd] in *.
  - exact Hm.
  - rewrite Hh. exact Hm.
Qed.

Lemma similar_ret (a : A) : similar (ret a) (ret a).
Proof. intros t1 t2 H. split; [reflexivity | exact H]. Qed.

Lemma similar_throw e : similar (@throw A e) (throw e).
Proof. intros t1 t2 H. split; [reflexivity | exact H]. Qed.

Lemma similar_await (c : settlement A) : similar (await c) (await c).
Proof. intros t1 t2 H. split; [reflexivity | exact H]. Qed.

Lemma similar_emit l a : similar (emit l a) (emit l a).
Proof.
  intros t1 t2 H. split; [reflexivity|]. cbn. rewrite H. reflexivity.
Qed.

Lemma similar_fetch (answer : settlement A) c1 c2 :
  similar (fetch answer c1) (fetch answer c2).
Proof. intros t1 t2 H. split; [reflexivity | exact H]. Qed.

Lemma similar_bind (m1 m2 : M A) (k1 k2 : A -> M B) :
  similar m1 m2 -> (forall a, similar (k1 a) (k2 a)) ->
  similar (bind m1 k1) (bind m2 k2).
Proof.
  intros Hm Hk t1 t2 H. unfold bind. destruct (Hm t1 t2 H) as [Hr Hc].
  destruct (m1 t1) as [[a1 | e1] t1'], (m2 t2) as [[a2 | e2] t2'];
    cbn [fst snd] in *; try discriminate.
  - injection Hr as <-. apply Hk. exact Hc.
  - injection Hr as <-. split; [reflexivity | exact Hc].
Qed.

Lemma similar_try_catch (m1 m2 : M A) (h1 h2 : thrown -> M A) :
  similar m1 m2 -> (forall e, similar (h1 e) (h2 e)) ->
  similar (try_catch m1 h1) (try_catch m2 h2).
Proof.
  intros Hm Hh t1 t2 H. unfold try_catch. destruct (Hm t1 t2 H) as [Hr Hc].
  destruct (m1 t1) as [[a1 | e1] t1'], (m2 t2) as [[a2 | e2] t2'];
    cbn [fst snd] in *; try discriminate.
  - split; [exact Hr | exact Hc].
  - injection Hr as <-. apply Hh. exact Hc.
Qed.

Lemma throws_objects_ret (a : A) : throws_objects (ret a).
Proof. intros t. exact I. Qed.

Lemma throws_objects_throw (e : JsError) : throws_objects (@throw A e).
Proof. intros t. exact I. Qed.

Lemma throws_objects_await (c : settlement A) :
  objects_only c -> throws_objects (await c).
Proof. intros H t. exact H. Qed.

Lemma throws_objects_emit l a : throws_objects (emit l a).
Proof. intros t. exact I. Qed.

Lemma throws_objects_bind (m : M A) (k : A -> M B) :
  throws_objects m -> (forall a, throws_objects (k a)) ->
  throws_objects (bind m k).
Proof.
  intros Hm Hk t. unfold bind. specialize (Hm t).
  destruct (m t) as [[a | e] t']; [apply Hk | exact Hm].
Qed.

Lemma throws_objects_try_catch (m : M A) (h : thrown -> M A) :
  (forall e, throws_objects (h e)) -> throws_objects (try_catch m h).
Proof.
  intros Hh t. unfold try_catch.
  destruct (m t) as [[a | e] t']; [exact I | apply Hh].
Qed.

End Logics.

Lemma objects_only_json engine b s :
  objects_only (NextResponse.json engine b s).
Proof.
  unfold NextResponse.json.
  destruct (_ || _)%bool; [exact I|].
  destruct (NextResponse.null_body_status s); exact I.
Qed.

Create HintDb relay_effects.
#[export] Hint Resolve silent_ret silent_throw silent_await silent_emit
  similar_ret similar_throw similar_await similar_emit similar_fetch
  throws_objects_ret throws_objects_throw throws_objects_await
  throws_objects_emit objects_only_json
  : relay_effects.

Ltac step_effects :=
  repeat first
    [ progress auto with relay_effects
    | apply silent_bind; [| intros ?]
    | apply silent_try_catch; [| intros ?]
    | apply similar_bind; [| intros ?]
    | apply similar_try_catch; [| intros ?]
    | apply throws_objects_bind; [| intros ?]
    | apply throws_objects_try_catch; intros ?
    | match goal with
      | |- silent (if ?b then _ else _) => destruct b
      | |- silent (match ?x with _ => _ end) => destruct x
      | |- similar (if ?b then _ else _) _ => destruct b
      | |- similar (match ?x with _ => _ end) _ => destruct x
      | |- throws_objects (if ?b then _ else _) => destruct b
      | |- throws_objects (match ?x with _ => _ end) => destruct x
      end ].

Section HandlerEffects.

Variable engine : Engine.

Lemma interpret_silent r : silent (interpret engine r).
Proof.
  unfold interpret, Response_json, JSON_parse, transcript_path,
    provider_message, member, console_error, console_warn.
  step_effects.
Qed.

Lemma interpret_similar r : similar (interpret engine r) (interpret engine r).
Proof.
  unfold interpret, Response_json, JSON_parse, transcript_path,
    provider_message, member, console_error, console_warn.
  step_effects.
Qed.

Lemma recover_similar e : similar (recover engine e) (recover engine e).
Proof. unfold recover, console_error. step_effects. Qed.

Lemma recover_silent e : silent (recover engine e).
Proof. unfold recover, console_error. step_effects. Qed.

(** The [catch] block makes no call: the calls of a run are those of its
    [try] block. *)
Lemma POST_calls env req network :
  calls (run (POST engine env req network))
  = calls (run (guarded engine env req network)).
Proof.
  unfold calls, run, POST, try_catch.
  destruct (guarded engine env req network quiet) as [[r | e] t];
    [reflexivity | apply recover_silent].
Qed.

(** What the handler throws of its own is an object: a value without
    properties can only come out of one of its three awaited calls. *)
Lemma interpret_throws_objects r :
  objects_only (Response.text r) -> throws_objects (interpret engine r).
Proof.
  intros H.
  unfold interpret, Response_json, JSON_parse, transcript_path,
    provider_message, member, console_error, console_warn.
  step_effects.
Qed.

Lemma forward_throws_objects key f network :
  objects_only network ->
  (forall r, network = Returned r -> objects_only (Response.text r)) ->
  throws_objects (forward engine key f network).
Proof.
  intros Hn Ht. unfold forward, console_error, console_log.
  destruct (negb _); [step_effects|].
  do 4 (apply throws_objects_bind; [apply throws_objects_emit | intros _]).
  intros t. unfold bind, fetch.
  destruct network as [r | e]; [|exact Hn].
  apply interpret_throws_objects, Ht. reflexivity.
Qed.

Lemma guarded_throws_objects env req network :
  objects_only (NextRequest.formData req) ->
  objects_only network ->
  (forall r, network = Returned r -> objects_only (Response.text r)) ->
  throws_objects (guarded engine env req network).
Proof.
  intros Hfd Hn Ht. unfold guarded, no_audio, console_error.
  destruct env as [[|c k]|]; [step_effects | | step_effects].
  apply throws_objects_bind; [apply throws_objects_await, Hfd | intros fd].
  destruct (FormData.get "audio" fd) as [[[|c1 s] | f]|].
  - step_effects.
  - step_effects.
  - apply forward_throws_objects; assumption.
  - step_effects.
Qed.

(** With the same answer to the call, the key makes no difference. *)
Lemma forward_similar k1 k2 f network :
  similar (forward engine k1 f network) (forward engine k2 f network).
Proof.
  unfold forward, console_error, console_log. step_effects.
  apply interpret_similar.
Qed.

(** A file that is turned away is turned away alike, whatever the call
    would have brought. *)
Lemma forward_refused_similar k1 k2 f n1 n2 :
  audio_type f = false ->
  similar (forward engine k1 f n1) (forward engine k2 f n2).
Proof.
  unfold audio_type, forward, console_error. intros ->. cbn [negb].
  step_effects.
Qed.

Lemma guarded_similar k1 k2 req n1 n2 :
  k1 <> "" -> k2 <> "" ->
  ((exists f, submits req f /\ audio_type f = true) -> n1 = n2) ->
  similar (guarded engine (Some k1) req n1) (guarded engine (Some k2) req n2).
Proof.
  intros H1 H2 Hn.
  rewrite (guarded_configured engine (Some k1) k1) by (split; auto).
  rewrite (guarded_configured engine (Some k2) k2) by (split; auto).
  intros t1 t2 Ht. unfold bind, await.
  destruct (NextRequest.formData req) as [fd | e] eqn:Hfd;
    [|split; [reflexivity | exact Ht]].
  destruct (FormData.get "audio" fd) as [[[|c s] | f]|] eqn:Hget.
  - revert t1 t2 Ht. unfold no_audio, console_error. step_effects.
  - revert t1 t2 Ht. step_effects.
  - destruct (audio_type f) eqn:Ha.
    + rewrite (Hn (ex_intro _ f (conj (ex_intro _ fd (conj Hfd Hget)) Ha))).
      apply forward_similar. exact Ht.
    + apply forward_refused_similar; assumption.
  - revert t1 t2 Ht. unfold no_audio, console_error. step_effects.
Qed.

End HandlerEffects.

(** ** The claims *)

Section Claims.

Variable engine : Engine.

(** C1.  When the provider answers with success and the body parses to
    [{results:{channels:[{alternatives:[{transcript: t}]}]}}] with [t] a
    non-empty string, the handler returns status 200 with the body
    [{transcript: t}], the text of the first channel's first alternative,
    and logs nothing more. *)
Theorem POST_returns_transcript env key req f r text d t :
  configured env key -> submits req f -> audio_type f = true ->
  Response.ok r = true ->
  Response.text r = Returned text ->
  Json.parse text = Some d ->
  transcript_shape t d ->
  t <> "" ->
  run (POST engine env req (Returned r))
  = (Returned {| NextResponse.status := 200;
                 NextResponse.body := JObj [("transcript", JStr t)] |},
     sent key f).
Proof.
  intros Hc Hs Ha Hok Htext Hp Hshape Ht.
  rewrite POST_of_guarded, (run_guarded_file _ _ _ _ _ _ Hc Hs),
    (forward_sent _ _ _ _ Ha).
  rewrite (interpret_success _ _ _ _ _ Hok Htext Hp)
    by (destruct Hshape; reflexivity).
  rewrite (shape_first_transcript _ _ Hshape).
  destruct t as [|c t']; [congruence | reflexivity].
Qed.

(** C2, amended.  When the provider answers with a non-success status and
    its body can be read as text, the handler logs the status and the
    text.  Under a status that a response with a body can carry (200 to
    599, but not 204, 205 or 304) it answers with that status and the body
    [{error: v}], where [v] is what serialisation leaves of: the parsed
    value's [error], else its [message], else ["Deepgram API error"] (the
    first truthy one, in that order) when the text parses to a JSON value
    other than [null]; and ["Deepgram API error: "] followed by the raw
    text when it does not parse or parses to [null].  Under any other
    status [NextResponse.json] throws, in the inner [try] and again in its
    [catch], and the answer is the 500 of the outer [catch] block. *)
Theorem POST_upstream_failure env key req f r errorText :
  configured env key -> submits req f -> audio_type f = true ->
  Response.ok r = false ->
  Response.text r = Returned errorText ->
  run (POST engine env req (Returned r))
  = if NextResponse.takes_body (Response.status r)
    then
      (Returned
         {| NextResponse.status := Response.status r;
            NextResponse.body := JObj [("error", wire (surfaced errorText))] |},
       push (provider_error_line r errorText) (sent key f))
    else
      (Returned
         {| NextResponse.status := 500;
            NextResponse.body :=
              JObj [("error",
                     JStr (fault_text
                             (NextResponse.status_error engine
                                (Response.status r))))] |},
       push (fault_line
               (NextResponse.status_error engine (Response.status r)))
            (push (provider_error_line r errorText) (sent key f))).
Proof.
  intros Hc Hs Ha Hok Htext.
  rewrite POST_of_guarded, (run_guarded_file _ _ _ _ _ _ Hc Hs),
    (forward_sent _ _ _ _ Ha).
  rewrite (interpret_failure _ _ _ _ Hok Htext), json_takes_body.
  destruct (NextResponse.takes_body (Response.status r)); [|reflexivity].
  unfold error_body.
  rewrite (wire_field _ _ (truthy_defined _ (surfaced_is_truthy errorText))).
  reflexivity.
Qed.

(** C3, amended.  When the provider answers with success, the body parses
    to a JSON value other than [null], and the transcript of the first
    channel's first alternative is empty or absent (or anything falsy),
    the handler returns status 404 with "No transcript could be generated
    from the audio.", which no answer of the [catch] block equals. *)
Theorem POST_no_transcript env key req f r text d :
  configured env key -> submits req f -> audio_type f = true ->
  Response.ok r = true ->
  Response.text r = Returned text ->
  Json.parse text = Some d ->
  d <> JNull ->
  truthy (first_transcript d) = false ->
  run (POST engine env req (Returned r))
  = (Returned no_transcript, push no_transcript_line (sent key f))
  /\ NextResponse.status no_transcript = 404%Z
  /\ forall e, no_transcript <> failed e.
Proof.
  intros Hc Hs Ha Hok Htext Hp Hd Hf. split; [|split].
  - rewrite POST_of_guarded, (run_guarded_file _ _ _ _ _ _ Hc Hs),
      (forward_sent _ _ _ _ Ha).
    rewrite (interpret_success _ _ _ _ _ Hok Htext Hp
               (parsed_nullish _ _ Hp Hd)).
    rewrite Hf. reflexivity.
  - reflexivity.
  - intros e H. apply (f_equal NextResponse.status) in H. discriminate.
Qed.

(** C4.  When [DEEPGRAM_API_KEY] is unset or empty, the handler answers
    status 500 at once, whatever the request: it logs one line and makes
    no outbound call. *)
Theorem POST_unconfigured env req network :
  env = None \/ env = Some "" ->
  run (POST engine env req network)
  = (Returned key_not_configured,
     {| console := [key_not_configured_line]; outbound := [] |})
  /\ NextResponse.status key_not_configured = 500%Z
  /\ List.length (calls (run (POST engine env req network))) = 0%nat.
Proof.
  intros [-> | ->]; repeat split.
Qed.

(** C5, amended.  When a credential is configured and the form data has no
    [audio] field, the handler answers status 400 with "No audio file
    provided." and makes no outbound call. *)
Theorem POST_missing_audio env key req fd network :
  configured env key ->
  NextRequest.formData req = Returned fd ->
  FormData.get "audio" fd = None ->
  run (POST engine env req network)
  = (Returned no_audio_file,
     {| console := [no_audio_file_line]; outbound := [] |})
  /\ NextResponse.status no_audio_file = 400%Z
  /\ List.length (calls (run (POST engine env req network))) = 0%nat.
Proof.
  intros Hc Hfd Hget.
  assert (run (guarded engine env req network)
          = (Returned no_audio_file,
             {| console := [no_audio_file_line]; outbound := [] |})) as E.
  { rewrite (guarded_configured _ _ _ _ _ Hc).
    unfold run, bind, await. rewrite Hfd, Hget. reflexivity. }
  unfold calls. rewrite POST_of_guarded, E. repeat split.
Qed.

(** C6, amended.  When a credential is configured and the [audio] entry is
    a file whose declared type does not start with [audio/], the handler
    answers status 400 with "Invalid file type. Only audio files are
    supported.", whatever the file's bytes, and makes no outbound call. *)
Theorem POST_invalid_file_type env key req f network :
  configured env key -> submits req f ->
  audio_type f = false ->
  run (POST engine env req network)
  = (Returned invalid_file_type,
     {| console := [invalid_file_type_line f]; outbound := [] |})
  /\ NextResponse.status invalid_file_type = 400%Z
  /\ List.length (calls (run (POST engine env req network))) = 0%nat.
Proof.
  intros Hc Hs Ha.
  assert (forward engine key f network quiet
          = (Returned invalid_file_type,
             {| console := [invalid_file_type_line f]; outbound := [] |}))
    as E.
  { unfold forward. unfold audio_type in Ha. rewrite Ha. reflexivity. }
  unfold calls.
  rewrite POST_of_guarded, (run_guarded_file _ _ _ _ _ _ Hc Hs), E.
  repeat split.
Qed.


(** C8, amended.  Every call the handler sends to the provider carries a
    file submitted under [audio] whose declared type starts with [audio/]:
    the call's [Content-Type] is that type and its body is the file's
    bytes, unchanged.  Nothing is required of the number of bytes. *)
Theorem forwarded_submission env req network c :
  In c (calls (run (POST engine env req network))) ->
  exists key f,
    configured env key /\ submits req f /\ audio_type f = true
    /\ c = deepgram_call key f
    /\ headers c = [("Authorization", "Token " ++ key);
                    ("Content-Type", File.type f)]
    /\ body c = File.bytes f.
Proof.
  rewrite POST_calls. unfold calls.
  destruct env as [[|c0 k]|]; try (intros []).
  assert (configured (Some (String c0 k)) (String c0 k)) as Hc
      by (split; [reflexivity | discriminate]).
  rewrite (guarded_configured _ _ _ _ _ Hc). unfold run, bind, await.
  destruct (NextRequest.formData req) as [fd | e] eqn:Hfd; [|intros []].
  destruct (FormData.get "audio" fd) as [[[|c1 s] | f]|] eqn:Hget;
    try (intros []).
  destruct (audio_type f) eqn:Ha.
  - rewrite (forward_sent _ _ _ _ Ha).
    assert (outbound
              (snd (match network with
                    | Returned r => interpret engine r (sent (String c0 k) f)
                    | Thrown e => (Thrown e, sent (String c0 k) f)
                    end))
            = [deepgram_call (String c0 k) f]) as ->.
    { destruct network as [r | e]; [|reflexivity].
      rewrite interpret_silent. reflexivity. }
    intros [<- | []]. exists (String c0 k), f.
    repeat split; try assumption; try discriminate.
    exists fd. split; assumption.
  - unfold forward. unfold audio_type in Ha. rewrite Ha. intros [].
Qed.


(** C10.  When a credential is configured and [req.formData()] rejects,
    the handler answers status 500, not a 400: the rejection reaches the
    [catch] block, which logs it, and no call goes out.  The [error] is
    "Transcription failed: " followed by the rejection's message whenever
    it has one. *)
Theorem POST_unparseable_form env key req network (e : JsError) :
  configured env key ->
  NextRequest.formData req = Thrown e ->
  run (POST engine env req network)
  = (Returned (failed e), {| console := [fault_line e]; outbound := [] |})
  /\ NextResponse.status (failed e) = 500%Z
  /\ (message e <> "" ->
      NextResponse.body (failed e)
      = error_body (JStr ("Transcription failed: " ++ message e))).
Proof.
  intros Hc Hfd. split; [|split].
  - rewrite POST_of_guarded, (guarded_configured _ _ _ _ _ Hc).
    unfold run, bind, await. rewrite Hfd. reflexivity.
  - reflexivity.
  - unfold failed, fault_text. cbn [NextResponse.body].
    destruct (message e); [congruence | reflexivity].
Qed.

End Claims.

(** ** The claims on examples *)

Lemma secret_configured : configured (Some "secret") "secret".
Proof. split; [reflexivity | discriminate]. Defined.

Lemma upload_submits f : submits (upload f) f.
Proof. exists [("audio", EntryFile f)]. split; reflexivity. Defined.

(** C1 on the spec's example: the body of [hello_world] comes back as
    [{transcript: "hello world"}] under status 200. *)
Lemma POST_returns_transcript_hello_world :
  run (POST v8 (Some "secret") (upload recording)
            (Returned (answer true 200 hello_world)))
  = (Returned
       {| NextResponse.status := 200;
          NextResponse.body := JObj [("transcript", JStr "hello world")] |},
     sent "secret" recording).
Proof.
  eapply (POST_returns_transcript v8 (Some "secret") "secret"
            (upload recording) recording
            (answer true 200 hello_world) hello_world _ "hello world").
  - exact secret_configured.
  - apply upload_submits.
  - reflexivity.
  - reflexivity.
  - reflexivity.
  - vm_compute. reflexivity.
  - econstructor; reflexivity.
  - discriminate.
Defined.

(** C2 on the spec's example: [{"error":"bad audio"}] under status 400. *)
Lemma POST_upstream_failure_bad_audio :
  response (run (POST v8 (Some "secret") (upload recording)
                      (Returned (answer false 400 bad_audio))))
  = Returned
      {| NextResponse.status := 400;
         NextResponse.body := JObj [("error", JStr "bad audio")] |}.
Proof.
  unfold response.
  rewrite (POST_upstream_failure v8 (Some "secret") "secret"
             (upload recording) recording (answer false 400 bad_audio)
             bad_audio
             secret_configured (upload_submits recording)
             eq_refl eq_refl eq_refl).
  reflexivity.
Defined.

(** C2 as stated fails twice.  On the body [null] under status 502: it is
    JSON, with neither an [error] nor a [message], and the handler answers
    with the raw text instead of the generic string.  And under status
    304, which is not a success: no response with a body can be built for
    it, and the handler answers 500 instead of passing the status on. *)
Lemma upstream_failure_diverges :
  (Json.parse "null" = Some JNull
   /\ spec_surfaced "null" = JStr "Deepgram API error"
   /\ response (run (POST v8 (Some "secret") (upload recording)
                          (Returned (answer false 502 "null"))))
      = Returned
          {| NextResponse.status := 502;
             NextResponse.body :=
               JObj [("error", JStr "Deepgram API error: null")] |}
   /\ response (run (POST v8 (Some "secret") (upload recording)
                          (Returned (answer false 502 "null"))))
      <> Returned
           {| NextResponse.status := 502;
              NextResponse.body := JObj [("error", spec_surfaced "null")] |})
  /\ (Response.ok (answer false 304 bad_audio) = false
      /\ response (run (POST v8 (Some "secret") (upload recording)
                             (Returned (answer false 304 bad_audio))))
         = Returned
             {| NextResponse.status := 500;
                NextResponse.body :=
                  JObj [("error",
                         JStr "Transcription failed: Response constructor: Invalid response status code 304")] |}
      /\ forall b,
           response (run (POST v8 (Some "secret") (upload recording)
                               (Returned (answer false 304 bad_audio))))
           <> Returned {| NextResponse.status := 304; NextResponse.body := b |}).
Proof.
  split; [|split; [|split]]; try (repeat split; reflexivity).
  - repeat split; try reflexivity. vm_compute. discriminate.
  - intros b. vm_compute. discriminate.
Qed.

(** C3 on a body without channels: [{"results":{"channels":[]}}]. *)
Lemma POST_no_transcript_no_channels :
  response (run (POST v8 (Some "secret") (upload recording)
                      (Returned (answer true 200 no_channels))))
  = Returned no_transcript.
Proof.
  unfold response.
  rewrite (proj1 (POST_no_transcript v8 (Some "secret") "secret"
                    (upload recording) recording
                    (answer true 200 no_channels) no_channels
                    (JObj [("results", JObj [("channels", JArr [])])])
                    secret_configured (upload_submits recording)
                    eq_refl eq_refl eq_refl eq_refl
                    ltac:(discriminate) eq_refl)).
  reflexivity.
Defined.

(** C3 as stated fails on the success body [null]: it has no transcript,
    yet reading [results] of [null] throws and the answer is the 500 of
    the [catch] block, not the 404. *)
Lemma null_success_body_is_fault :
  Json.parse "null" = Some JNull
  /\ response (run (POST v8 (Some "secret") (upload recording)
                         (Returned (answer true 200 "null"))))
     = Returned
         {| NextResponse.status := 500;
            NextResponse.body :=
              error_body
                (JStr "Transcription failed: Cannot read properties of null (reading 'results')") |}
  /\ response (run (POST v8 (Some "secret") (upload recording)
                         (Returned (answer true 200 "null"))))
     <> Returned no_transcript.
Proof.
  repeat split; try reflexivity. vm_compute. discriminate.
Qed.

(** C4 with the variable unset. *)
Lemma POST_unconfigured_unset :
  response (run (POST v8 None (upload recording)
                      (Returned (answer true 200 hello_world))))
  = Returned key_not_configured
  /\ calls (run (POST v8 None (upload recording)
                      (Returned (answer true 200 hello_world)))) = [].
Proof.
  pose proof (POST_unconfigured v8 None (upload recording)
                (Returned (answer true 200 hello_world))
                (or_introl eq_refl))
    as [E _].
  unfold response, calls. rewrite E. split; reflexivity.
Defined.

(** C5 on an empty form. *)
Lemma POST_missing_audio_empty_form :
  response (run (POST v8 (Some "secret") empty_form
                      (Returned (answer true 200 hello_world))))
  = Returned no_audio_file.
Proof.
  pose proof (POST_missing_audio v8 (Some "secret") "secret" empty_form []
                (Returned (answer true 200 hello_world))
                secret_configured eq_refl eq_refl) as [E _].
  unfold response. rewrite E. reflexivity.
Defined.

(** C5 as stated fails when no credential is configured: the same empty
    form is answered with the 500 of the configuration check. *)
Lemma missing_audio_unconfigured :
  FormData.get "audio" [] = None
  /\ response (run (POST v8 None empty_form
                         (Returned (answer true 200 hello_world))))
     = Returned key_not_configured
  /\ NextResponse.status key_not_configured = 500%Z
  /\ response (run (POST v8 None empty_form
                         (Returned (answer true 200 hello_world))))
     <> Returned no_audio_file.
Proof.
  repeat split; try reflexivity. vm_compute. discriminate.
Qed.

(** C6 on a text file. *)
Lemma POST_invalid_file_type_notes :
  response (run (POST v8 (Some "secret") (upload notes)
                      (Returned (answer true 200 hello_world))))
  = Returned invalid_file_type.
Proof.
  pose proof (POST_invalid_file_type v8 (Some "secret") "secret"
                (upload notes) notes
                (Returned (answer true 200 hello_world))
                secret_configured (upload_submits notes) eq_refl)
    as [E _].
  unfold response. rewrite E. reflexivity.
Defined.

(** C6 as stated fails when no credential is configured: the text file is
    answered with the 500 of the configuration check. *)
Lemma invalid_type_unconfigured :
  audio_type notes = false
  /\ response (run (POST v8 None (upload notes)
                         (Returned (answer true 200 hello_world))))
     = Returned key_not_configured
  /\ NextResponse.status key_not_configured = 500%Z
  /\ response (run (POST v8 None (upload notes)
                         (Returned (answer true 200 hello_world))))
     <> Returned invalid_file_type.
Proof.
  repeat split; try reflexivity. vm_compute. discriminate.
Qed.



(** C8 on the recording: the one call made carries its type and bytes. *)
Lemma forwarded_submission_recording :
  exists key f,
    configured (Some "secret") key /\ submits (upload recording) f
    /\ audio_type f = true
    /\ deepgram_call "secret" recording = deepgram_call key f
    /\ headers (deepgram_call "secret" recording)
       = [("Authorization", "Token " ++ key); ("Content-Type", File.type f)]
    /\ body (deepgram_call "secret" recording) = File.bytes f.
Proof.
  apply (forwarded_submission v8 (Some "secret") (upload recording)
           (Returned (answer true 200 hello_world))).
  left. reflexivity.
Defined.

(** C8 as stated fails on a recording of zero bytes: it is forwarded. *)
Lemma empty_payload_forwarded :
  audio_type silence = true
  /\ File.bytes silence = []
  /\ calls (run (POST v8 (Some "secret") (upload silence)
                      (Returned (answer true 200 hello_world))))
     = [deepgram_call "secret" silence]
  /\ body (deepgram_call "secret" silence) = [].
Proof.
  repeat split; reflexivity.
Qed.



(** C10 on a body that is not multipart. *)
Lemma POST_unparseable_form_not_multipart :
  run (POST v8 (Some "secret")
            {| NextRequest.formData := Thrown not_multipart |}
            (Returned (answer true 200 hello_world)))
  = (Returned
       {| NextResponse.status := 500;
          NextResponse.body :=
            error_body
              (JStr "Transcription failed: Failed to parse body as FormData.") |},
     {| console := [fault_line not_multipart]; outbound := [] |}).
Proof.
  exact (proj1 (POST_unparseable_form v8 (Some "secret") "secret"
                  {| NextRequest.formData := Thrown not_multipart |}
                  (Returned (answer true 200 hello_world)) not_multipart
                  secret_configured eq_refl)).
Defined.

(** ** More of the handler *)

Section Frame.

Context {A B : Type}.

Lemma extend_quiet d : extend quiet d = d.
Proof. destruct d. reflexivity. Qed.

Lemma extend_assoc t d1 d2 :
  extend (extend t d1) d2 = extend t (extend d1 d2).
Proof. unfold extend. cbn. rewrite !app_assoc. reflexivity. Qed.

Lemma framed_ret (a : A) : framed (ret a).
Proof.
  intros t. unfold ret, extend. cbn. rewrite !app_nil_r.
  destruct t; reflexivity.
Qed.

Lemma framed_throw e : framed (@throw A e).
Proof.
  intros t. unfold throw, extend. cbn. rewrite !app_nil_r.
  destruct t; reflexivity.
Qed.

Lemma framed_await (c : settlement A) : framed (await c).
Proof.
  intros t. unfold await, extend. cbn. rewrite !app_nil_r.
  destruct t; reflexivity.
Qed.

Lemma framed_emit l a : framed (emit l a).
Proof. intros t. unfold emit, extend. cbn. rewrite app_nil_r. reflexivity. Qed.

Lemma framed_fetch (answer : settlement A) c : framed (fetch answer c).
Proof. intros t. unfold fetch, extend. cbn. rewrite app_nil_r. reflexivity. Qed.

Lemma framed_bind (m : M A) (k : A -> M B) :
  framed m -> (forall a, framed (k a)) -> framed (bind m k).
Proof.
  intros Hm Hk t. unfold bind. rewrite (Hm t).
  destruct (m quiet) as [[a | e] d1]; cbn [fst snd].
  - rewrite (Hk a (extend t d1)), (Hk a d1). cbn [fst snd].
    rewrite extend_assoc. reflexivity.
  - reflexivity.
Qed.

Lemma framed_try_catch (m : M A) (h : thrown -> M A) :
  framed m -> (forall e, framed (h e)) -> framed (try_catch m h).
Proof.
  intros Hm Hh t. unfold try_catch. rewrite (Hm t).
  destruct (m quiet) as [[a | e] d1]; cbn [fst snd].
  - reflexivity.
  - rewrite (Hh e (extend t d1)), (Hh e d1). cbn [fst snd].
    rewrite extend_assoc. reflexivity.
Qed.

End Frame.

#[export] Hint Resolve framed_ret framed_throw framed_await framed_emit
  framed_fetch : relay_effects.

Ltac step_frame :=
  repeat first
    [ progress auto with relay_effects
    | apply framed_bind; [| intros ?]
    | apply framed_try_catch; [| intros ?]
    | match goal with
      | |- framed (if ?b then _ else _) => destruct b
      | |- framed (match ?x with _ => _ end) => destruct x
      end ].

Section More.

Variable engine : Engine.

Lemma POST_framed env req network : framed (POST engine env req network).
Proof.
  unfold POST, guarded, recover, no_audio, forward, interpret, Response_json,
    JSON_parse, transcript_path, provider_message, member,
    console_error, console_warn, console_log.
  step_frame.
Qed.


(** However many requests came before, the handler answers as on a fresh
    start and adds to the console and to the outbound calls exactly what a
    fresh run produces: nothing is remembered between requests. *)
Theorem POST_after_any_history env req network t :
  response (POST engine env req network t)
  = response (run (POST engine env req network))
  /\ logged (POST engine env req network t)
     = (console t ++ logged (run (POST engine env req network)))%list
  /\ calls (POST engine env req network t)
     = (outbound t ++ calls (run (POST engine env req network)))%list.
Proof.
  unfold response, logged, calls, run.
  rewrite (POST_framed env req network t). repeat split.
Qed.

Lemma run_accepted env req key f network :
  accepted env req key f ->
  run (POST engine env req network)
  = match network with
    | Returned r =>
        match interpret engine r (sent key f) with
        | (Returned a, t) => (Returned a, t)
        | (Thrown e, t) => recover engine e t
        end
    | Thrown e => recover engine e (sent key f)
    end.
Proof.
  intros (Hc & Hs & Ha).
  rewrite POST_of_guarded, (run_guarded_file _ _ _ _ _ _ Hc Hs),
    (forward_sent _ _ _ _ Ha).
  destruct network; reflexivity.
Qed.

(** An accepted request makes the one call, however the call ends. *)
Lemma accepted_calls env req key f network :
  accepted env req key f ->
  calls (run (POST engine env req network)) = [deepgram_call key f].
Proof.
  intros Hacc. unfold calls. rewrite (run_accepted _ _ _ _ _ Hacc).
  destruct network as [r | e]; [|apply (recover_silent engine e)].
  pose proof (interpret_silent engine r (sent key f)) as Hsil.
  destruct (interpret engine r (sent key f)) as [[a | e] t];
    cbn [snd] in *; [exact Hsil|].
  rewrite (recover_silent engine e t). exact Hsil.
Qed.

Lemma failed_is_truthy e : truthy (JStr (fault_text e)) = true.
Proof. unfold fault_text. destruct (message e); reflexivity. Qed.

(** A request is accepted, or turned away before the call with an error
    and a single [console.error] line. *)
Lemma accepted_or_turned_away env req network :
  (exists key f, accepted env req key f)
  \/ ((forall key f, ~ accepted env req key f)
      /\ outbound (snd (run (POST engine env req network))) = []
      /\ forall r t,
           run (POST engine env req network) = (Returned r, t) ->
           exists l v,
             t = {| console := [l]; outbound := [] |}
             /\ NextResponse.body r = error_body (JStr v)
             /\ v <> ""
             /\ lvl l = Error).
Proof.
  assert (forall (r0 : NextResponse.t) l v,
             NextResponse.body r0 = error_body (JStr v) -> v <> "" ->
             lvl l = Error ->
             forall r t,
               (Returned r0, {| console := [l]; outbound := [] |})
               = (@Returned thrown _ r, t) ->
               exists l' v',
                 t = {| console := [l']; outbound := [] |}
                 /\ NextResponse.body r = error_body (JStr v')
                 /\ v' <> "" /\ lvl l' = Error) as Hone.
  { intros r0 l v Hb Hv Hl r t E. injection E as <- <-.
    exists l, v. split; [reflexivity|]. split; [exact Hb|].
    split; assumption. }
  assert (forall e, fault_text e <> "") as Hfault.
  { intros e. unfold fault_text. destruct (negb _); discriminate. }
  destruct env as [[|c0 k]|].
  - right. split; [|split].
    + intros key f ([E Hk] & _). injection E as <-. congruence.
    + reflexivity.
    + refine (Hone _ _ _ _ _ _); [reflexivity | discriminate | reflexivity].
  - set (key := String c0 k).
    assert (configured (Some key) key) as Hc
        by (split; [reflexivity | discriminate]).
    destruct (NextRequest.formData req) as [fd | e] eqn:Hfd.
    + destruct (FormData.get "audio" fd) as [[s | f]|] eqn:Hget.
      * right. split; [|split].
        { intros key' f' (_ & (fd' & Hfd' & Hget') & _).
          rewrite Hfd in Hfd'. injection Hfd' as <-. congruence. }
        { rewrite POST_of_guarded, (guarded_configured _ _ _ _ _ Hc).
          unfold run, bind, await. rewrite Hfd, Hget.
          destruct s; reflexivity. }
        rewrite POST_of_guarded, (guarded_configured _ _ _ _ _ Hc).
        unfold run, bind, await. rewrite Hfd, Hget.
        destruct s.
        { refine (Hone _ _ _ _ _ _); [reflexivity | discriminate | reflexivity]. }
        { refine (Hone (failed _) _ _ _ _ _); [reflexivity | apply Hfault | reflexivity]. }
      * destruct (audio_type f) eqn:Ha.
        { left. exists key, f.
          split; [exact Hc|]. split; [exists fd; split; assumption | exact Ha]. }
        { right.
          assert (run (POST engine (Some key) req network)
                  = (Returned invalid_file_type,
                     {| console := [invalid_file_type_line f];
                        outbound := [] |})) as E.
          { rewrite POST_of_guarded,
              (run_guarded_file _ _ _ _ _ network Hc
                 (ex_intro _ fd (conj Hfd Hget))).
            unfold forward. unfold audio_type in Ha. rewrite Ha.
            reflexivity. }
          split; [|split].
          { intros key' f' (_ & (fd' & Hfd' & Hget') & Ha').
            rewrite Hfd in Hfd'. injection Hfd' as <-.
            rewrite Hget in Hget'. injection Hget' as <-. congruence. }
          { rewrite E. reflexivity. }
          rewrite E. refine (Hone _ _ _ _ _ _); [reflexivity | discriminate | reflexivity]. }
      * right. split; [|split].
        { intros key' f' (_ & (fd' & Hfd' & Hget') & _).
          rewrite Hfd in Hfd'. injection Hfd' as <-. congruence. }
        { rewrite POST_of_guarded, (guarded_configured _ _ _ _ _ Hc).
          unfold run, bind, await. rewrite Hfd, Hget. reflexivity. }
        rewrite POST_of_guarded, (guarded_configured _ _ _ _ _ Hc).
        unfold run, bind, await. rewrite Hfd, Hget.
        refine (Hone _ _ _ _ _ _); [reflexivity | discriminate | reflexivity].
    + right. split; [|split].
      { intros key' f' (_ & (fd' & Hfd' & _) & _). congruence. }
      { rewrite POST_of_guarded, (guarded_configured _ _ _ _ _ Hc).
        unfold run, bind, await. rewrite Hfd.
        apply (recover_silent engine e). }
      rewrite POST_of_guarded, (guarded_configured _ _ _ _ _ Hc).
      unfold run, bind, await. rewrite Hfd.
      destruct e as [e | | | e]; try discriminate.
      rewrite recover_object.
      refine (Hone (failed e) _ _ _ _ _); [reflexivity | apply Hfault | reflexivity].
  - right. split; [|split].
    + intros key f ([E _] & _). discriminate.
    + reflexivity.
    + refine (Hone _ _ _ _ _ _); [reflexivity | discriminate | reflexivity].
Qed.

(** The handler calls the provider exactly once when a credential is
    configured and the [audio] entry is a file of an [audio/] type,
    whatever the provider then does, and not at all otherwise. *)
Theorem POST_calls_once_when_accepted env req network :
  (exists key f, accepted env req key f
                 /\ calls (run (POST engine env req network))
                    = [deepgram_call key f])
  \/ ((forall key f, ~ accepted env req key f)
      /\ calls (run (POST engine env req network)) = []).
Proof.
  destruct (accepted_or_turned_away env req network)
    as [(key & f & Hacc) | (Hno & E & _)].
  - left. exists key, f. split; [exact Hacc|].
    apply accepted_calls. exact Hacc.
  - right. split; [exact Hno | exact E].
Qed.

(** When [audio] is a text field instead of a file, a non-empty value
    makes [audioFile.type.startsWith] throw and is answered with the 500 of
    the [catch] block; an empty value counts as no audio (400).  Neither
    reaches the provider. *)
Theorem POST_text_field_audio env key req fd s network :
  configured env key ->
  NextRequest.formData req = Returned fd ->
  FormData.get "audio" fd = Some (EntryString s) ->
  run (POST engine env req network)
  = if s =? ""
    then (Returned no_audio_file,
          {| console := [no_audio_file_line]; outbound := [] |})
    else (Returned (failed (TypeError_read engine JUndefined "startsWith")),
          {| console :=
               [fault_line (TypeError_read engine JUndefined "startsWith")];
             outbound := [] |}).
Proof.
  intros Hc Hfd Hget.
  rewrite POST_of_guarded, (guarded_configured _ _ _ _ _ Hc).
  unfold run, bind, await. rewrite Hfd, Hget.
  destruct s; reflexivity.
Qed.

(** When the call to the provider itself fails, the call has gone out and
    the handler answers with the 500 of the [catch] block, carrying the
    failure's message. *)
Theorem POST_network_failure env key req f (e : JsError) :
  accepted env req key f ->
  run (POST engine env req (Thrown e))
  = (Returned (failed e), push (fault_line e) (sent key f)).
Proof.
  intros Hacc. rewrite (run_accepted _ _ _ _ _ Hacc). reflexivity.
Qed.

(** When the provider's body cannot be read, the handler answers with the
    500 of the [catch] block, also when the provider's status was an error
    of its own: that status is then neither logged nor passed on. *)
Theorem POST_body_read_failure env key req f r (e : JsError) :
  accepted env req key f ->
  Response.text r = Thrown e ->
  run (POST engine env req (Returned r))
  = (Returned (failed e), push (fault_line e) (sent key f)).
Proof.
  intros Hacc Htext. rewrite (run_accepted _ _ _ _ _ Hacc).
  unfold interpret, Response_json, bind, await. rewrite Htext.
  destruct (Response.ok r); reflexivity.
Qed.

(** When the provider answers with success and a body that is not JSON,
    the handler answers with the 500 of the [catch] block, carrying the
    parser's message. *)
Theorem POST_malformed_success_body env key req f r text :
  accepted env req key f ->
  Response.ok r = true ->
  Response.text r = Returned text ->
  Json.parse text = None ->
  run (POST engine env req (Returned r))
  = (Returned (failed (SyntaxError_json engine text)),
     push (fault_line (SyntaxError_json engine text)) (sent key f)).
Proof.
  intros Hacc Hok Htext Hp. rewrite (run_accepted _ _ _ _ _ Hacc).
  unfold interpret, Response_json, JSON_parse, bind, await.
  rewrite Hok, Htext, Hp. reflexivity.
Qed.

(** Whatever truthy value sits at the transcript path of a success body
    goes out under [transcript] as serialisation leaves it, with status 200
    and without a further log line: a string as it is, a number as the
    double the provider's literal denotes, and [null] in place of a number
    beyond the doubles. *)
Theorem POST_transcript_passthrough env key req f r text d :
  accepted env req key f ->
  Response.ok r = true ->
  Response.text r = Returned text ->
  Json.parse text = Some d ->
  d <> JNull ->
  truthy (first_transcript d) = true ->
  run (POST engine env req (Returned r))
  = (Returned
       {| NextResponse.status := 200;
          NextResponse.body :=
            JObj [("transcript", wire (first_transcript d))] |},
     sent key f).
Proof.
  intros Hacc Hok Htext Hp Hd Ht. rewrite (run_accepted _ _ _ _ _ Hacc).
  rewrite (interpret_success _ _ _ _ _ Hok Htext Hp (parsed_nullish _ _ Hp Hd)).
  rewrite Ht. reflexivity.
Qed.

Lemma interpret_cases r key f :
  match interpret engine r (sent key f) with
  | (Returned a, t) => ended_well a t
  | (Thrown e, t) => True
  end.
Proof.
  destruct (Response.text r) as [text | e] eqn:Htext.
  - destruct (Response.ok r) eqn:Hok.
    + destruct (Json.parse text) as [d|] eqn:Hp.
      * destruct (nullish d) eqn:Hn.
        { unfold interpret, Response_json, JSON_parse, transcript_path,
            member, bind, await. rewrite Hok, Htext, Hp. cbn. rewrite Hn.
          exact I. }
        rewrite (interpret_success _ _ _ _ _ Hok Htext Hp Hn).
        destruct (truthy (first_transcript d)) eqn:Ht.
        { left. exists (first_transcript d). repeat split; [exact Ht|].
          cbn. repeat constructor. }
        { right.
          exists (JStr "No transcript could be generated from the audio."),
            (console (sent key f)), no_transcript_line.
          repeat split. discriminate. }
      * unfold interpret, Response_json, JSON_parse, bind, await.
        rewrite Hok, Htext, Hp. exact I.
    + rewrite (interpret_failure _ _ _ _ Hok Htext), json_takes_body.
      destruct (NextResponse.takes_body (Response.status r)); [|exact I].
      right. exists (surfaced text), (console (sent key f)),
        (provider_error_line r text).
      repeat split; [|apply surfaced_is_truthy | discriminate].
      cbn [NextResponse.body]. unfold error_body.
      apply wire_field, truthy_defined, surfaced_is_truthy.
  - unfold interpret, Response_json, bind, await. rewrite Htext.
    destruct (Response.ok r); exact I.
Qed.

Lemma recover_ends_well e t r t' :
  recover engine e t = (Returned r, t') -> ended_well r t'.
Proof.
  destruct e as [e | | | e]; try discriminate.
  rewrite recover_object. intros E. injection E as <- <-.
  right. exists (JStr (fault_text e)), (console t), (fault_line e).
  repeat split; [apply failed_is_truthy | discriminate].
Qed.

(** Every run that returns a response ends well. *)
Lemma POST_ends_well env req network r t :
  run (POST engine env req network) = (Returned r, t) -> ended_well r t.
Proof.
  destruct (accepted_or_turned_away env req network)
    as [(key & f & Hacc) | (_ & _ & H)].
  - rewrite (run_accepted _ _ _ _ _ Hacc).
    destruct network as [r0 | e]; [|apply recover_ends_well].
    pose proof (interpret_cases r0 key f) as H.
    destruct (interpret engine r0 (sent key f)) as [[a | e] t0].
    + intros E. injection E as <- <-. exact H.
    + apply recover_ends_well.
  - intros E. destruct (H r t E) as (l & v & -> & Hb & Hv & Hl).
    right. exists (JStr v), [], l. repeat split; try assumption.
    + destruct v; [congruence | reflexivity].
    + rewrite Hl. discriminate.
Qed.

(** Every answer of the handler has one field: [transcript] under status
    200, or [error].  The field holds what serialisation leaves of a truthy
    value, so when it holds a string the string is not empty.  (It can
    hold [null]: a number beyond the doubles is truthy.) *)
Theorem POST_answers_are_well_formed env req network r t :
  run (POST engine env req network) = (Returned r, t) ->
  well_formed r
  /\ forall m,
       NextResponse.body r = JObj [("transcript", JStr m)]
       \/ NextResponse.body r = JObj [("error", JStr m)] ->
       m <> "".
Proof.
  intros E. apply POST_ends_well in E.
  destruct E as [(v & -> & Hv & _) | (v & ls & l & Hb & Hv & _)].
  - split; [exists v; split; [exact Hv | left; reflexivity]|].
    intros m [H | H]; [|discriminate].
    cbn in H. injection H as H. apply wire_string in H. subst v.
    intros ->. discriminate.
  - split; [exists v; split; [exact Hv | right; exact Hb]|].
    rewrite Hb. intros m [H | H]; [discriminate|].
    injection H as H. apply wire_string in H. subst v.
    intros ->. discriminate.
Qed.

(** Every error answer is logged: when the handler answers [{error: ...}],
    the last console line of the run is a [console.error] or a
    [console.warn]; when it answers a transcript, the run has only
    [console.log] lines. *)
Theorem POST_errors_are_logged env req network r t :
  run (POST engine env req network) = (Returned r, t) ->
  ((exists v, NextResponse.body r = error_body v) ->
   exists ls l, console t = (ls ++ [l])%list /\ lvl l <> Log)
  /\ ((exists v, NextResponse.body r = transcript_body v) ->
      Forall (fun l => lvl l = Log) (console t)).
Proof.
  intros E. apply POST_ends_well in E.
  destruct E as [(v & -> & Hv & Hall) | (v & ls & l & Hb & Hv & Hc & Hl)].
  - split; [|intros _; exact Hall].
    intros (v' & Hb). discriminate.
  - split; [intros _; eauto|].
    intros (v' & Hb'). rewrite Hb in Hb'. discriminate.
Qed.

End More.

(** ** The page *)

Ltac run_page :=
  unfold Page.onstop, Page.transcribe, Page.error_message,
    Page.transcription_failed, Page.JSON_parse, Page.member, Page.to_string,
    Page.fetch, Page.toast, Page.console_error, Page.try_finally,
    Page.try_catch, Page.bind, Page.update, Page.await, Page.ret, Page.throw;
  cbn.

Ltac split_cases :=
  repeat match goal with
         | |- context [match ?x with _ => _ end] =>
             lazymatch x with
             | context [match _ with _ => _ end] => fail
             | _ => destruct x eqn:?; cbn
             end
         end.

Section PageFacts.

Variable engine : Engine.
Variable ToString : jsval -> completion string.

Lemma onstop_outcome network s :
  exists s' delta toast,
    Page.onstop engine ToString network s = (Returned tt, s')
    /\ Page.isRecording s' = false
    /\ Page.isTranscribing s' = false
    /\ Page.liveStreams s' = Nat.pred (Page.liveStreams s)
    /\ Page.mediaRecorder s' = Page.mediaRecorder s
    /\ Page.audioChunks s' = Page.audioChunks s
    /\ Page.events s' = (Page.events s ++ delta)%list
    /\ requests_in delta = [transcription_request s]
    /\ toasts_in delta = [toast]
    /\ ((Page.title toast = "Transcription Complete"
         /\ Page.destructive toast = false)
        \/ (Page.title toast = "Transcription Failed"
            /\ Page.destructive toast = true
            /\ Page.transcript s' = Page.transcript s)).
Proof.
  run_page. split_cases;
    (eexists _, _, _; split; [reflexivity|]; cbn;
     repeat rewrite <- app_assoc;
     repeat split; try reflexivity; auto).
Qed.

(** Whatever the server or the network does, [onstop] ends without
    throwing: the page is neither recording nor transcribing, the stream
    is let go, exactly one request went out and exactly one toast was
    shown, and unless that toast is "Transcription Complete" the
    transcript is what it was. *)
Theorem onstop_settles network s :
  exists s' delta toast,
    Page.onstop engine ToString network s = (Returned tt, s')
    /\ Page.isRecording s' = false
    /\ Page.isTranscribing s' = false
    /\ Page.liveStreams s' = Nat.pred (Page.liveStreams s)
    /\ Page.events s' = (Page.events s ++ delta)%list
    /\ requests_in delta = [transcription_request s]
    /\ toasts_in delta = [toast]
    /\ ((Page.title toast = "Transcription Complete"
         /\ Page.destructive toast = false)
        \/ (Page.title toast = "Transcription Failed"
            /\ Page.destructive toast = true
            /\ Page.transcript s' = Page.transcript s)).
Proof.
  destruct (onstop_outcome network s)
    as (s' & delta & toast & E & H1 & H2 & H3 & _ & _ & H4 & H5 & H6 & H7).
  exists s', delta, toast. repeat split; assumption.
Qed.

(** On a reply that is ok and parses to a value other than [null], the
    transcript becomes that value's [transcript] field, whatever it is, and
    the page announces "Transcription Complete". *)
Theorem onstop_shows_transcript r raw d s :
  Page.ok r = true ->
  Page.text r = Returned raw ->
  Json.parse raw = Some d ->
  d <> JNull ->
  exists s',
    Page.onstop engine ToString (Returned r) s = (Returned tt, s')
    /\ Page.transcript s' = own_field d "transcript"
    /\ Page.events s'
       = (Page.events s
          ++ [Page.Fetched (transcription_request s);
              Page.Toasted complete_toast])%list.
Proof.
  intros Hok Htext Hp Hd.
  pose proof (parsed_nullish _ _ Hp Hd) as Hn.
  run_page. rewrite Hok, Htext. cbn. rewrite Hp. cbn. rewrite Hn. cbn.
  eexists. split; [reflexivity|]. cbn.
  rewrite <- app_assoc. split; reflexivity.
Qed.

(** On a reply that is not ok and parses to a value other than [null]
    whose [error] is a non-empty string, the page shows that string in a
    destructive toast, logs it, and leaves the transcript alone. *)
Theorem onstop_shows_server_error r raw d m s :
  Page.ok r = false ->
  Page.text r = Returned raw ->
  Json.parse raw = Some d ->
  d <> JNull ->
  own_field d "error" = JStr m ->
  m <> "" ->
  exists s',
    Page.onstop engine ToString (Returned r) s = (Returned tt, s')
    /\ Page.transcript s' = Page.transcript s
    /\ Page.events s'
       = (Page.events s
          ++ [Page.Fetched (transcription_request s);
              Page.Logged (client_error_line (Page.new_Error m));
              Page.Toasted (failed_toast m)])%list.
Proof.
  intros Hok Htext Hp Hd He Hm.
  pose proof (parsed_nullish _ _ Hp Hd) as Hn.
  run_page. rewrite Hok, Htext. cbn. rewrite Hp. cbn. rewrite Hn. cbn.
  rewrite He. unfold or_else. cbn.
  destruct m as [|c m]; [congruence|]. cbn.
  eexists. split; [reflexivity|]. cbn.
  rewrite <- !app_assoc. split; reflexivity.
Qed.

(** On a reply that is not ok and parses to a value other than [null]
    without a truthy [error], the page falls back on the status line:
    "Server error: <status> <statusText>". *)
Theorem onstop_falls_back_on_status r raw d s :
  Page.ok r = false ->
  Page.text r = Returned raw ->
  Json.parse raw = Some d ->
  d <> JNull ->
  truthy (own_field d "error") = false ->
  exists s',
    Page.onstop engine ToString (Returned r) s = (Returned tt, s')
    /\ Page.transcript s' = Page.transcript s
    /\ Page.events s'
       = (Page.events s
          ++ [Page.Fetched (transcription_request s);
              Page.Logged
                (client_error_line
                   (Page.new_Error
                      ("Server error: " ++ Page.decimal (Page.status r)
                       ++ " " ++ Page.statusText r)));
              Page.Toasted
                (failed_toast
                   ("Server error: " ++ Page.decimal (Page.status r)
                    ++ " " ++ Page.statusText r))])%list.
Proof.
  intros Hok Htext Hp Hd He.
  pose proof (parsed_nullish _ _ Hp Hd) as Hn.
  run_page. rewrite Hok, Htext. cbn. rewrite Hp. cbn. rewrite Hn. cbn.
  unfold or_else. rewrite He. cbn.
  eexists. split; [reflexivity|]. cbn.
  rewrite <- !app_assoc. split; reflexivity.
Qed.

(** On a reply that is not ok and whose body is not JSON, or is [null],
    the page logs the raw text and shows it inside "Server returned an
    unexpected error: ... (See console for details)". *)
Theorem onstop_shows_raw_text r raw s :
  Page.ok r = false ->
  Page.text r = Returned raw ->
  Json.parse raw = None \/ Json.parse raw = Some JNull ->
  exists s',
    Page.onstop engine ToString (Returned r) s = (Returned tt, s')
    /\ Page.transcript s' = Page.transcript s
    /\ Page.events s'
       = (Page.events s
          ++ [Page.Fetched (transcription_request s);
              Page.Logged (non_json_line raw);
              Page.Logged
                (client_error_line
                   (Page.new_Error
                      ("Server returned an unexpected error: " ++ raw
                       ++ ". (See console for details)")));
              Page.Toasted
                (failed_toast
                   ("Server returned an unexpected error: " ++ raw
                    ++ ". (See console for details)"))])%list.
Proof.
  intros Hok Htext Hp.
  run_page. rewrite Hok, Htext. cbn.
  destruct Hp as [-> | ->]; cbn;
    (eexists; split; [reflexivity|]; cbn;
     rewrite <- !app_assoc; split; reflexivity).
Qed.

(** When the request itself fails, the page shows the failure's message,
    or a stock sentence when it has none. *)
Theorem onstop_network_failure e s :
  exists s',
    Page.onstop engine ToString (Thrown e) s = (Returned tt, s')
    /\ Page.transcript s' = Page.transcript s
    /\ Page.events s'
       = (Page.events s
          ++ [Page.Fetched (transcription_request s);
              Page.Logged (client_error_line e);
              Page.Toasted
                (failed_toast
                   (if message e =? ""
                    then "An unknown error occurred during transcription. Please try again."
                    else message e))])%list.
Proof.
  run_page. eexists. split; [reflexivity|]. cbn.
  rewrite <- !app_assoc. split; [reflexivity|].
  destruct (message e =? ""); reflexivity.
Qed.


(** What the page uploads passes both checks of the handler: when a
    credential is configured and the request's form is the one the page
    builds, the handler calls the provider once, with [audio/webm] as
    content type and the recorded chunks, joined in order, as body. *)
Theorem page_upload_reaches_provider env key req chunks network :
  configured env key ->
  NextRequest.formData req = Returned (Page.upload chunks) ->
  exists call,
    calls (run (POST engine env req network)) = [call]
    /\ call = deepgram_call key (Page.Blob chunks "audio/webm" "recording.webm")
    /\ headers call = [("Authorization", "Token " ++ key);
                       ("Content-Type", "audio/webm")]
    /\ body call = List.concat chunks.
Proof.
  intros Hc Hfd.
  assert (accepted env req key (Page.Blob chunks "audio/webm" "recording.webm"))
    as Hacc.
  { split; [exact Hc|]. split; [|reflexivity].
    exists (Page.upload chunks). split; [exact Hfd | reflexivity]. }
  eexists. split; [|repeat split].
  apply (accepted_calls engine _ _ _ _ _ Hacc).
Qed.

Lemma deliver_run chunks : forall s,
  Page.deliver chunks s
  = (Returned tt, Page.setAudioChunks (Page.audioChunks s ++ chunks)%list s).
Proof.
  induction chunks as [|c rest IH]; intros s.
  - cbn. rewrite app_nil_r. destruct s; reflexivity.
  - cbn. unfold Page.bind, Page.ondataavailable, Page.update.
    rewrite IH. cbn. rewrite <- app_assoc. reflexivity.
Qed.

(** A session uploads exactly the chunks recorded in it, in order, however
    many chunks an earlier session left behind; afterwards the page is
    idle again, the recorder is inactive and no more streams are live than
    before. *)
Theorem session_uploads_its_chunks during flushed network s :
  exists s' delta,
    Page.session engine ToString during flushed network s = (Returned tt, s')
    /\ Page.events s' = (Page.events s ++ delta)%list
    /\ requests_in delta
       = [{| Page.url := "/api/transcribe"; Page.method := "POST";
             Page.body := Page.upload (during ++ flushed) |}]
    /\ Page.isRecording s' = false
    /\ Page.isTranscribing s' = false
    /\ Page.mediaRecorder s' = Some Page.inactive
    /\ Page.liveStreams s' = Page.liveStreams s.
Proof.
  unfold Page.session, Page.bind.
  unfold Page.startRecording, Page.try_catch, Page.bind, Page.await,
    Page.update, Page.toast. cbn -[Page.onstop Page.stopRecording Page.deliver].
  rewrite deliver_run. unfold Page.stopRecording, Page.bind, Page.update,
    Page.toast. cbn -[Page.onstop Page.deliver].
  rewrite deliver_run. cbn -[Page.onstop].
  match goal with
  | |- context [Page.onstop engine ToString network ?s0] =>
      destruct (onstop_outcome network s0)
        as (s' & delta & toast & E & H1 & H2 & H3 & H4 & H5 & H6 & H7 & _)
  end.
  rewrite E. eexists s', _. split; [reflexivity|].
  cbn in H3, H4, H6, H7. rewrite H6.
  repeat rewrite <- app_assoc.
  split; [reflexivity|]. cbn. rewrite H7. unfold transcription_request. cbn.
  repeat split; assumption.
Qed.

(** Wherever [startRecording] fails (the microphone is refused, the
    recorder cannot be made, or it cannot be started) it logs the failure
    and shows "Microphone Access Denied"; the page does not start
    recording and keeps its transcript.  A stream that was granted before
    the failure stays live. *)
Theorem startRecording_failure getUserMedia newMediaRecorder start e s :
  getUserMedia = Thrown e
  \/ (getUserMedia = Returned tt /\ newMediaRecorder = Thrown e)
  \/ (getUserMedia = Returned tt /\ newMediaRecorder = Returned tt
      /\ start = Thrown e) ->
  exists s',
    Page.startRecording getUserMedia newMediaRecorder start s
    = (Returned tt, s')
    /\ Page.isRecording s' = Page.isRecording s
    /\ Page.isTranscribing s' = Page.isTranscribing s
    /\ Page.transcript s' = Page.transcript s
    /\ Page.liveStreams s'
       = match getUserMedia with
         | Thrown _ => Page.liveStreams s
         | Returned _ => S (Page.liveStreams s)
         end
    /\ Page.events s'
       = (Page.events s
          ++ [Page.Logged (microphone_error_line e);
              Page.Toasted denied_toast])%list.
Proof.
  intros [-> | [[-> ->] | (-> & -> & ->)]];
    (eexists; split; [reflexivity|]; cbn;
     rewrite <- !app_assoc; repeat split).
Qed.

(** A second [stopRecording] changes nothing: the recorder is no longer
    recording, so no second toast is shown. *)
Theorem stopRecording_twice s :
  Page.bind Page.stopRecording (fun _ => Page.stopRecording) s
  = Page.stopRecording s.
Proof.
  unfold Page.bind, Page.stopRecording.
  destruct (Page.mediaRecorder s) as [[]|] eqn:E; cbn; try rewrite E;
    reflexivity.
Qed.

(** After a transcription that ended well with a transcript that is a
    non-empty string (a text, which the page can render), Copy, Download
    and Speak hand out the very text the server sent: it is what goes to
    the clipboard, into the file, and to the synthesiser, in [en-US]. *)
Theorem page_hands_out_the_transcript r raw d text iso s :
  Page.ok r = true ->
  Page.text r = Returned raw ->
  Json.parse raw = Some d ->
  d <> JNull ->
  own_field d "transcript" = JStr text ->
  text <> "" ->
  exists s',
    Page.bind (Page.onstop engine ToString (Returned r))
      (fun _ => Page.bind (Page.copyToClipboard (Returned tt))
      (fun _ => Page.bind (Page.downloadTranscript iso)
      (fun _ => Page.speakText true))) s
    = (Returned tt, s')
    /\ Page.events s'
       = (Page.events s
          ++ [Page.Fetched (transcription_request s);
              Page.Toasted complete_toast;
              Page.Copied (JStr text);
              Page.Toasted
                {| Page.title := "Copied to clipboard";
                   Page.description :=
                     "Transcript has been copied successfully";
                   Page.destructive := false |};
              Page.Downloaded ("transcript-" ++ Page.before_T iso ++ ".txt")
                              "text/plain" (JStr text);
              Page.Toasted
                {| Page.title := "Download started";
                   Page.description := "Transcript file is being downloaded";
                   Page.destructive := false |};
              Page.Spoke (JStr text) "en-US"])%list.
Proof.
  intros Hok Htext Hp Hd Ht Hne.
  pose proof (parsed_nullish _ _ Hp Hd) as Hn.
  unfold Page.copyToClipboard, Page.downloadTranscript, Page.speakText.
  run_page. rewrite Hok, Htext. cbn. rewrite Hp. cbn. rewrite Hn. cbn.
  rewrite Ht. destruct text as [|c text']; [congruence|]. cbn.
  eexists. split; [reflexivity|]. cbn.
  rewrite <- !app_assoc. reflexivity.
Qed.

Lemma before_T_date date rest :
  (forall c, In c (list_ascii_of_string date) -> c <> "T"%char) ->
  Page.before_T (date ++ String "T" rest) = date.
Proof.
  induction date as [|c date IH]; intros H; cbn.
  - reflexivity.
  - destruct (Ascii.eqb_spec c "T"%char) as [-> | _].
    + exfalso. apply (H "T"%char); [left; reflexivity | reflexivity].
    + rewrite IH; [reflexivity|]. intros c' Hc'. apply H. right. exact Hc'.
Qed.

(** The file offered for download is named after the date part of the ISO
    time, [transcript-<date>.txt], and holds the transcript as plain
    text. *)
Theorem downloadTranscript_names_the_day date rest s :
  (forall c, In c (list_ascii_of_string date) -> c <> "T"%char) ->
  Page.downloadTranscript (date ++ String "T" rest) s
  = (Returned tt,
     Page.emit
       (Page.Toasted
          {| Page.title := "Download started";
             Page.description := "Transcript file is being downloaded";
             Page.destructive := false |})
       (Page.emit
          (Page.Downloaded ("transcript-" ++ date ++ ".txt") "text/plain"
                           (Page.transcript s))
          s)).
Proof.
  intros H. unfold Page.downloadTranscript, Page.bind, Page.update, Page.toast.
  rewrite (before_T_date _ _ H). reflexivity.
Qed.

End PageFacts.

(** ** The page and the handler together *)

Section Together.

Variable engine : Engine.
Variable ToString : jsval -> completion string.

(** Whenever the handler answers with an error that is a string, under a
    status outside 200-299, the page shows exactly that string in a
    destructive "Transcription Failed" toast and leaves the transcript
    alone. *)
Theorem server_error_reaches_the_user env req network r t m reply s :
  run (POST engine env req network) = (Returned r, t) ->
  NextResponse.body r = error_body (JStr m) ->
  in_2xx (NextResponse.status r) = false ->
  delivers r reply ->
  exists s',
    Page.onstop engine ToString (Returned reply) s = (Returned tt, s')
    /\ Page.transcript s' = Page.transcript s
    /\ Page.events s'
       = (Page.events s
          ++ [Page.Fetched (transcription_request s);
              Page.Logged (client_error_line (Page.new_Error m));
              Page.Toasted (failed_toast m)])%list.
Proof.
  intros E Hb Hs (_ & Hok & raw & Htext & Hp).
  assert (m <> "") as Hm.
  { destruct (POST_ends_well engine env req network r t E)
      as [(v & -> & _) | (v & ls & l & Hb' & Hv & _)].
    - discriminate.
    - rewrite Hb in Hb'. injection Hb' as Hw. symmetry in Hw.
      apply wire_string in Hw. subst v.
      intros ->. discriminate. }
  rewrite Hs in Hok. rewrite Hb in Hp.
  run_page. rewrite Hok, Htext. cbn. rewrite Hp. cbn.
  destruct m as [|c m]; [congruence|]. cbn.
  eexists. split; [reflexivity|]. cbn.
  rewrite <- !app_assoc. split; reflexivity.
Qed.

(** From the recorded chunks to the transcript on the page: when the
    handler receives the form the page built, holds a credential, and the
    provider answers with a transcript [t], the provider has received the
    chunks joined in order as [audio/webm], and once the handler's answer
    is delivered the page shows [t] and announces "Transcription
    Complete". *)
Theorem recording_to_transcript
    env key req provider raw d t r trace reply s :
  configured env key ->
  NextRequest.formData req = Returned (Page.upload (Page.audioChunks s)) ->
  Response.ok provider = true ->
  Response.text provider = Returned raw ->
  Json.parse raw = Some d ->
  transcript_shape t d ->
  t <> "" ->
  run (POST engine env req (Returned provider)) = (Returned r, trace) ->
  delivers r reply ->
  (exists call,
     outbound trace = [call]
     /\ body call = List.concat (Page.audioChunks s)
     /\ headers call = [("Authorization", "Token " ++ key);
                        ("Content-Type", "audio/webm")])
  /\ exists s',
       Page.onstop engine ToString (Returned reply) s = (Returned tt, s')
       /\ Page.transcript s' = JStr t
       /\ Page.events s'
          = (Page.events s
             ++ [Page.Fetched (transcription_request s);
                 Page.Toasted complete_toast])%list.
Proof.
  intros Hc Hfd Hok Htext Hp Hshape Ht E (_ & Hrok & text & Hrtext & Hrp).
  set (f := Page.Blob (Page.audioChunks s) "audio/webm" "recording.webm").
  assert (accepted env req key f) as Hacc.
  { split; [exact Hc|]. split; [|reflexivity].
    exists (Page.upload (Page.audioChunks s)).
    split; [exact Hfd | reflexivity]. }
  rewrite (run_accepted _ _ _ _ _ _ Hacc) in E.
  rewrite (interpret_success _ _ _ _ _ Hok Htext Hp) in E
    by (destruct Hshape; reflexivity).
  rewrite (shape_first_transcript _ _ Hshape) in E.
  destruct t as [|c t']; [congruence|]. cbn in E.
  injection E as <- <-. split.
  - eexists. split; [reflexivity|]. split; reflexivity.
  - cbn in Hrok, Hrp.
    run_page. rewrite Hrok, Hrtext. cbn. rewrite Hrp. cbn.
    eexists. split; [reflexivity|]. cbn.
    rewrite <- app_assoc. split; reflexivity.
Qed.

End Together.

(** ** The further properties on examples *)

Lemma secret_accepts_recording :
  accepted (Some "secret") (upload recording) "secret" recording.
Proof.
  split; [exact secret_configured|].
  split; [apply upload_submits | reflexivity].
Defined.

Lemma POST_answers_are_well_formed_unset :
  well_formed key_not_configured
  /\ forall m,
       NextResponse.body key_not_configured
       = JObj [("transcript", JStr m)]
       \/ NextResponse.body key_not_configured = JObj [("error", JStr m)] ->
       m <> "".
Proof.
  exact (POST_answers_are_well_formed v8 None (upload recording)
           (Returned (answer true 200 hello_world))
           key_not_configured
           {| console := [key_not_configured_line]; outbound := [] |}
           eq_refl).
Defined.

Lemma POST_errors_are_logged_unset :
  ((exists v, NextResponse.body key_not_configured = error_body v) ->
   exists ls l, [key_not_configured_line] = (ls ++ [l])%list /\ lvl l <> Log)
  /\ ((exists v, NextResponse.body key_not_configured = transcript_body v) ->
      Forall (fun l => lvl l = Log) [key_not_configured_line]).
Proof.
  exact (POST_errors_are_logged v8 None (upload recording)
           (Returned (answer true 200 hello_world))
           key_not_configured
           {| console := [key_not_configured_line]; outbound := [] |}
           eq_refl).
Defined.

Lemma POST_text_field_audio_hello :
  run (POST v8 (Some "secret") (text_field "hello")
            (Returned (answer true 200 hello_world)))
  = (Returned
       {| NextResponse.status := 500;
          NextResponse.body :=
            error_body
              (JStr "Transcription failed: Cannot read properties of undefined (reading 'startsWith')") |},
     {| console := [fault_line (TypeError_read v8 JUndefined "startsWith")];
        outbound := [] |}).
Proof.
  exact (POST_text_field_audio v8 (Some "secret") "secret"
           (text_field "hello") [("audio", EntryString "hello")] "hello"
           (Returned (answer true 200 hello_world))
           secret_configured eq_refl eq_refl).
Defined.

Lemma POST_network_failure_fetch_failed :
  run (POST v8 (Some "secret") (upload recording) (Thrown fetch_failed))
  = (Returned (failed fetch_failed),
     push (fault_line fetch_failed) (sent "secret" recording)).
Proof.
  exact (POST_network_failure v8 (Some "secret") "secret" (upload recording)
           recording fetch_failed secret_accepts_recording).
Defined.

Lemma POST_body_read_failure_bad_gateway :
  run (POST v8 (Some "secret") (upload recording)
            (Returned {| Response.ok := false; Response.status := 502;
                         Response.text := Thrown body_aborted |}))
  = (Returned (failed body_aborted),
     push (fault_line body_aborted) (sent "secret" recording)).
Proof.
  exact (POST_body_read_failure v8 (Some "secret") "secret" (upload recording)
           recording
           {| Response.ok := false; Response.status := 502;
              Response.text := Thrown body_aborted |}
           body_aborted secret_accepts_recording eq_refl).
Defined.

Lemma POST_malformed_success_body_oops :
  run (POST v8 (Some "secret") (upload recording)
            (Returned (answer true 200 "oops")))
  = (Returned (failed (SyntaxError_json v8 "oops")),
     push (fault_line (SyntaxError_json v8 "oops")) (sent "secret" recording)).
Proof.
  exact (POST_malformed_success_body v8 (Some "secret") "secret"
           (upload recording) recording (answer true 200 "oops") "oops"
           secret_accepts_recording eq_refl eq_refl eq_refl).
Defined.

Lemma POST_transcript_passthrough_42 :
  run (POST v8 (Some "secret") (upload recording)
            (Returned (answer true 200 transcript_42)))
  = (Returned
       {| NextResponse.status := 200;
          NextResponse.body :=
            JObj [("transcript", JNum (double_of_decimal false 42 0))] |},
     sent "secret" recording).
Proof.
  refine (POST_transcript_passthrough v8 (Some "secret") "secret"
            (upload recording) recording (answer true 200 transcript_42)
            transcript_42
            (JObj [("results",
                    JObj [("channels",
                           JArr [JObj [("alternatives",
                                        JArr [JObj [("transcript",
                                                     JNum (double_of_decimal
                                                             false 42 0))]])]])])])
            secret_accepts_recording eq_refl eq_refl _ _ eq_refl).
  - vm_compute. reflexivity.
  - discriminate.
Defined.

(** A number beyond the doubles is truthy, and goes out as [null]; a
    number between two doubles goes out as the nearer one; an [error] that
    is such a number goes out as [null] too. *)
Lemma numbers_on_the_wire :
  response (run (POST v8 (Some "secret") (upload recording)
                      (Returned (answer true 200 transcript_1e400))))
  = Returned
      {| NextResponse.status := 200;
         NextResponse.body := JObj [("transcript", JNull)] |}
  /\ response (run (POST v8 (Some "secret") (upload recording)
                         (Returned (answer true 200 transcript_2_53_plus_1))))
     = Returned
         {| NextResponse.status := 200;
            NextResponse.body :=
              JObj [("transcript",
                     JNum (double_of_decimal false 9007199254740992 0))] |}
  /\ response (run (POST v8 (Some "secret") (upload recording)
                         (Returned (answer false 400 error_1e400))))
     = Returned
         {| NextResponse.status := 400;
            NextResponse.body := JObj [("error", JNull)] |}.
Proof.
  repeat split; vm_compute; reflexivity.
Qed.

Lemma onstop_shows_transcript_hello :
  exists s',
    Page.onstop v8 object_Object
      (Returned (reply true 200 "OK" hello_answer)) Page.initial
    = (Returned tt, s')
    /\ Page.transcript s' = JStr "hello world"
    /\ Page.events s'
       = [Page.Fetched (transcription_request Page.initial);
          Page.Toasted complete_toast].
Proof.
  refine (onstop_shows_transcript v8 object_Object
            (reply true 200 "OK" hello_answer) hello_answer
            (JObj [("transcript", JStr "hello world")]) Page.initial
            eq_refl eq_refl _ _).
  - vm_compute. reflexivity.
  - discriminate.
Defined.

Lemma onstop_shows_server_error_no_audio :
  exists s',
    Page.onstop v8 object_Object
      (Returned (reply false 400 "Bad Request" no_audio_answer)) Page.initial
    = (Returned tt, s')
    /\ Page.transcript s' = JStr ""
    /\ Page.events s'
       = [Page.Fetched (transcription_request Page.initial);
          Page.Logged
            (client_error_line (Page.new_Error "No audio file provided."));
          Page.Toasted (failed_toast "No audio file provided.")].
Proof.
  refine (onstop_shows_server_error v8 object_Object
            (reply false 400 "Bad Request" no_audio_answer) no_audio_answer
            (JObj [("error", JStr "No audio file provided.")])
            "No audio file provided." Page.initial
            eq_refl eq_refl _ _ eq_refl _).
  - vm_compute. reflexivity.
  - discriminate.
  - discriminate.
Defined.

Lemma onstop_falls_back_on_status_busy :
  exists s',
    Page.onstop v8 object_Object
      (Returned (reply false 503 "Service Unavailable" busy_answer))
      Page.initial
    = (Returned tt, s')
    /\ Page.transcript s' = JStr ""
    /\ Page.events s'
       = [Page.Fetched (transcription_request Page.initial);
          Page.Logged
            (client_error_line
               (Page.new_Error "Server error: 503 Service Unavailable"));
          Page.Toasted (failed_toast "Server error: 503 Service Unavailable")].
Proof.
  refine (onstop_falls_back_on_status v8 object_Object
            (reply false 503 "Service Unavailable" busy_answer) busy_answer
            (JObj [("detail", JStr "busy")]) Page.initial
            eq_refl eq_refl _ _ eq_refl).
  - vm_compute. reflexivity.
  - discriminate.
Defined.

Lemma onstop_shows_raw_text_gateway :
  exists s',
    Page.onstop v8 object_Object
      (Returned (reply false 502 "Bad Gateway" "upstream timed out"))
      Page.initial
    = (Returned tt, s')
    /\ Page.transcript s' = JStr ""
    /\ Page.events s'
       = [Page.Fetched (transcription_request Page.initial);
          Page.Logged (non_json_line "upstream timed out");
          Page.Logged
            (client_error_line
               (Page.new_Error
                  "Server returned an unexpected error: upstream timed out. (See console for details)"));
          Page.Toasted
            (failed_toast
               "Server returned an unexpected error: upstream timed out. (See console for details)")].
Proof.
  refine (onstop_shows_raw_text v8 object_Object
            (reply false 502 "Bad Gateway" "upstream timed out")
            "upstream timed out" Page.initial eq_refl eq_refl _).
  left. vm_compute. reflexivity.
Defined.

Lemma page_upload_reaches_provider_two_chunks :
  exists call,
    calls (run (POST v8 (Some "secret")
                     {| NextRequest.formData :=
                          Returned (Page.upload [[x1a; x45]; [xdf; xa3]]) |}
                     (Thrown fetch_failed)))
    = [call]
    /\ call = deepgram_call "secret"
                (Page.Blob [[x1a; x45]; [xdf; xa3]] "audio/webm"
                           "recording.webm")
    /\ headers call = [("Authorization", "Token secret");
                       ("Content-Type", "audio/webm")]
    /\ body call = [x1a; x45; xdf; xa3].
Proof.
  exact (page_upload_reaches_provider v8 (Some "secret") "secret"
           {| NextRequest.formData :=
                Returned (Page.upload [[x1a; x45]; [xdf; xa3]]) |}
           [[x1a; x45]; [xdf; xa3]] (Thrown fetch_failed)
           secret_configured eq_refl).
Defined.

Lemma startRecording_failure_not_allowed :
  exists s',
    Page.startRecording (Thrown not_allowed) (Returned tt) (Returned tt)
      Page.initial
    = (Returned tt, s')
    /\ Page.isRecording s' = false
    /\ Page.isTranscribing s' = false
    /\ Page.transcript s' = JStr ""
    /\ Page.liveStreams s' = 0%nat
    /\ Page.events s'
       = [Page.Logged (microphone_error_line not_allowed);
          Page.Toasted denied_toast].
Proof.
  exact (startRecording_failure (Thrown not_allowed) (Returned tt)
           (Returned tt) not_allowed Page.initial (or_introl eq_refl)).
Defined.

Lemma downloadTranscript_names_the_day_2025 :
  Page.downloadTranscript "2025-01-31T10:15:00.000Z" Page.initial
  = (Returned tt,
     Page.emit
       (Page.Toasted
          {| Page.title := "Download started";
             Page.description := "Transcript file is being downloaded";
             Page.destructive := false |})
       (Page.emit
          (Page.Downloaded "transcript-2025-01-31.txt" "text/plain" (JStr ""))
          Page.initial)).
Proof.
  refine (downloadTranscript_names_the_day "2025-01-31" "10:15:00.000Z"
            Page.initial _).
  intros c H. cbn in H.
  repeat (destruct H as [<- | H]; [discriminate|]). destruct H.
Defined.

Lemma server_error_reaches_the_user_no_audio :
  exists s',
    Page.onstop v8 object_Object
      (Returned (reply false 400 "Bad Request" no_audio_answer)) Page.initial
    = (Returned tt, s')
    /\ Page.transcript s' = JStr ""
    /\ Page.events s'
       = [Page.Fetched (transcription_request Page.initial);
          Page.Logged
            (client_error_line (Page.new_Error "No audio file provided."));
          Page.Toasted (failed_toast "No audio file provided.")].
Proof.
  refine (server_error_reaches_the_user v8 object_Object (Some "secret")
            empty_form (Thrown fetch_failed) no_audio_file
            {| console := [no_audio_file_line]; outbound := [] |}
            "No audio file provided."
            (reply false 400 "Bad Request" no_audio_answer) Page.initial
            eq_refl eq_refl eq_refl _).
  split; [reflexivity|]. split; [reflexivity|].
  exists no_audio_answer. split; [reflexivity|]. vm_compute. reflexivity.
Defined.

Lemma recording_to_transcript_hello :
  (exists call,
     outbound (sent "secret"
                 (Page.Blob [[x1a; x45]; [xdf; xa3]] "audio/webm"
                            "recording.webm")) = [call]
     /\ body call = [x1a; x45; xdf; xa3]
     /\ headers call = [("Authorization", "Token secret");
                        ("Content-Type", "audio/webm")])
  /\ exists s',
       Page.onstop v8 object_Object
         (Returned (reply true 200 "OK" hello_answer)) two_chunks
       = (Returned tt, s')
       /\ Page.transcript s' = JStr "hello world"
       /\ Page.events s'
          = [Page.Fetched
               {| Page.url := "/api/transcribe"; Page.method := "POST";
                  Page.body :=
                    [("audio",
                      EntryFile
                        {| File.name := "recording.webm";
                           File.type := "audio/webm";
                           File.bytes := [x1a; x45; xdf; xa3] |})] |};
             Page.Toasted complete_toast].
Proof.
  refine (recording_to_transcript v8 object_Object (Some "secret") "secret"
            {| NextRequest.formData :=
                 Returned (Page.upload [[x1a; x45]; [xdf; xa3]]) |}
            (answer true 200 hello_world) hello_world _ "hello world"
            {| NextResponse.status := 200;
               NextResponse.body :=
                 JObj [("transcript", JStr "hello world")] |}
            (sent "secret"
               (Page.Blob [[x1a; x45]; [xdf; xa3]] "audio/webm"
                          "recording.webm"))
            (reply true 200 "OK" hello_answer) two_chunks
            secret_configured eq_refl eq_refl eq_refl _ _ _ _ _).
  - vm_compute. reflexivity.
  - econstructor; reflexivity.
  - discriminate.
  - reflexivity.
  - split; [reflexivity|]. split; [reflexivity|].
    exists hello_answer. split; [reflexivity|]. vm_compute. reflexivity.
Defined.

Lemma page_hands_out_the_transcript_hello :
  exists s',
    Page.bind (Page.onstop v8 object_Object
                 (Returned (reply true 200 "OK" hello_answer)))
      (fun _ => Page.bind (Page.copyToClipboard (Returned tt))
      (fun _ => Page.bind (Page.downloadTranscript "2025-01-31T10:15:00.000Z")
      (fun _ => Page.speakText true))) Page.initial
    = (Returned tt, s')
    /\ Page.events s'
       = [Page.Fetched (transcription_request Page.initial);
          Page.Toasted complete_toast;
          Page.Copied (JStr "hello world");
          Page.Toasted
            {| Page.title := "Copied to clipboard";
               Page.description := "Transcript has been copied successfully";
               Page.destructive := false |};
          Page.Downloaded "transcript-2025-01-31.txt" "text/plain"
                          (JStr "hello world");
          Page.Toasted
            {| Page.title := "Download started";
               Page.description := "Transcript file is being downloaded";
               Page.destructive := false |};
          Page.Spoke (JStr "hello world") "en-US"].
Proof.
  refine (page_hands_out_the_transcript v8 object_Object
            (reply true 200 "OK" hello_answer) hello_answer
            (JObj [("transcript", JStr "hello world")]) "hello world"
            "2025-01-31T10:15:00.000Z" Page.initial
            eq_refl eq_refl _ _ eq_refl _).
  - vm_compute. reflexivity.
  - discriminate.
  - discriminate.
Defined.
